(** * The conversation manager of the Gemini chat facade

    A shallow embedding of [gemini_client.py] (class [GeminiClient]):
    the store of conversations, the sliding window over each history, and
    the message exchange with its success and failure paths.

    Python objects are modelled as follows.
    - [Dict[str, Any]] values built by the code (history entries, results)
      are finite maps from keys to a small universe of values.
    - [self.conversations] is a finite map from identifiers to conversation
      records; [None] is never a key, since [create_conversation] replaces it
      by a fresh identifier before storing.
    - Statements that may raise run in a state-and-exception monad whose
      state survives a raise, as mutations made before a Python exception do.
    - The SDK, the clock, the image decoder, the file system and the uuid
      source are an environment [Env] given to each call: what the remote
      answers, whether a payload decodes, whether the output directory can
      be created and a file written, or the exception raised instead, are
      inputs of the call.
    - [max_history] is a Python [int], and [h[-max_history:]] is the slice
      Python computes for it, whatever its sign. *)

From Stdlib Require Import ZArith.
From Stdlib.Strings Require Import Ascii Byte.
From stdpp Require Import base strings gmap list pretty.

Local Open Scope string_scope.
Local Open Scope list_scope.
Local Open Scope Z_scope.

(** ** Python values *)

#[warnings="-register-all"]
Inductive value : Type :=
  | VNone
  | VBool (b : bool)
  | VStr (s : string)
  | VList (vs : list value).

Abbreviation Dict := (gmap string value).

(** [x] where [x : Optional[str]]. *)
Definition of_optional_str (o : option string) : value :=
  match o with Some s => VStr s | None => VNone end.

(** A list of strings as a Python list. *)
Definition of_str_list (l : list string) : value := VList (VStr <$> l).

(** ** Exceptions and outcomes *)

(** An exception is kept by what the code reads of it, [str(e)]. *)
Record Exception : Type := Exc { str : string }.

Inductive outcome (A : Type) : Type :=
  | Return (a : A)
  | Raise (e : Exception).
Arguments Return {A} a.
Arguments Raise {A} e.

(** ** Slices, paths and formatting *)

(** The index at which [l[start:]] begins for a list of length [len]:
    a negative [start] counts from the end and is clamped at 0, a
    non-negative one is clamped at [len]. *)
Definition slice_start (start : Z) (len : nat) : nat :=
  if start <? 0 then Z.to_nat (Z.max 0 (start + Z.of_nat len))
  else Nat.min (Z.to_nat start) len.

(** [l[start:]] *)
Definition slice_from {A : Type} (start : Z) (l : list A) : list A :=
  drop (slice_start start (length l)) l.

Definition starts_with_slash (s : string) : bool :=
  match s with
  | String c _ => bool_decide (c = "/"%char)
  | EmptyString => false
  end.

Fixpoint ends_with_slash (s : string) : bool :=
  match s with
  | EmptyString => false
  | String c EmptyString => bool_decide (c = "/"%char)
  | String _ rest => ends_with_slash rest
  end.

(** [os.path.join(a, b)] on POSIX, for two components. *)
Definition os_path_join (a b : string) : string :=
  if starts_with_slash b then b
  else if bool_decide (a = "") || ends_with_slash a then a +:+ b
  else a +:+ "/" +:+ b.

(** ** The remote response, as far as the code reads it *)

Definition datetime : Type := Z.
Definition Chat : Type := nat.

Record Image : Type := Decoded { pixels : list byte }.

Record Blob : Type := { data : option (list byte) }.
Record Part : Type := { inline_data : option Blob }.
Record Content : Type := { parts : option (list Part) }.
Record Candidate : Type := { content : option Content }.
Record GenerateContentResponse : Type := {
  text : option string;
  candidates : option (list Candidate)
}.

(** [BytesIO(d)]: [None] gives the empty buffer. *)
Definition BytesIO (d : option (list byte)) : list byte := default [] d.

(** ** The environment of a call *)

Record Env : Type := {
  uuid4 : string;                          (* str(uuid.uuid4()) *)
  chats_create : string -> outcome Chat;   (* self.client.chats.create(model=..) *)
  chat_send : Chat -> string -> outcome GenerateContentResponse;
                                           (* chat.send_message(message) *)
  clock : nat -> datetime;                 (* the n-th reading of datetime.now() *)
  isoformat : datetime -> string;
  strftime : datetime -> string;           (* .strftime("%Y%m%d%H%M%S") *)
  Image_open : list byte -> outcome Image; (* Image.open(BytesIO(..)) *)
  makedirs : string -> outcome unit;       (* os.makedirs(dir, exist_ok=True) *)
  save : Image -> string -> outcome unit   (* image.save(filepath) *)
}.

(** ** State *)

Record Conversation : Type := {
  chat : Chat;
  history : list Dict;
  created_at : datetime;
  last_active : datetime
}.

Record GeminiClient : Type := {
  api_key : string;
  model : string;
  max_history : Z;
  output_dir : string;
  conversations : gmap string Conversation
}.

(** The client object together with what it touches outside itself: the
    number of clock readings made so far and the image files written. *)
Record World : Type := {
  self : GeminiClient;
  ticks : nat;
  disk : list (string * Image)
}.

Definition set_conversations (f : gmap string Conversation -> gmap string Conversation)
    (w : World) : World :=
  {| self := {| api_key := api_key (self w); model := model (self w);
                max_history := max_history (self w);
                output_dir := output_dir (self w);
                conversations := f (conversations (self w)) |};
     ticks := ticks w; disk := disk w |}.

Definition set_history (h : list Dict) (c : Conversation) : Conversation :=
  {| chat := chat c; history := h; created_at := created_at c;
     last_active := last_active c |}.

Definition set_last_active (t : datetime) (c : Conversation) : Conversation :=
  {| chat := chat c; history := history c; created_at := created_at c;
     last_active := t |}.

(** ** The monad of statements *)

Definition M (A : Type) : Type := World -> outcome A * World.

Definition ret {A : Type} (a : A) : M A := fun w => (Return a, w).

Definition bind {A B : Type} (m : M A) (k : A -> M B) : M B :=
  fun w => match m w with
           | (Return a, w') => k a w'
           | (Raise e, w') => (Raise e, w')
           end.

Definition raise {A : Type} (e : Exception) : M A := fun w => (Raise e, w).

(** [try: body except Exception as e: handler] *)
Definition try_except {A : Type} (body : M A) (handler : Exception -> M A) : M A :=
  fun w => match body w with
           | (Return a, w') => (Return a, w')
           | (Raise e, w') => handler e w'
           end.

Definition lift {A : Type} (o : outcome A) : M A := fun w => (o, w).
Definition gets {A : Type} (f : World -> A) : M A := fun w => (Return (f w), w).
Definition modify (f : World -> World) : M unit := fun w => (Return tt, f w).

Declare Scope py_scope.
Delimit Scope py_scope with py.
Notation "x <- m ;; k" := (bind m (fun x => k))
  (at level 100, m at next level, right associativity) : py_scope.
Notation "m ;;; k" := (bind m (fun _ => k))
  (at level 100, right associativity) : py_scope.
Local Open Scope py_scope.

(** The world after [n] more readings of the clock. *)
Definition advance (n : nat) (w : World) : World :=
  {| self := self w; ticks := (n + ticks w)%nat; disk := disk w |}.

(** [datetime.now()] *)
Definition now (env : Env) : M datetime :=
  fun w => (Return (clock env (ticks w)), advance 1 w).

(** [image.save(filepath)]: one more file on the disk, or the exception
    of a write that fails (a directory that does not exist, a mode the
    format cannot hold), which leaves no file. *)
Definition Image_save (env : Env) (image : Image) (filepath : string) : M unit :=
  fun w => match save env image filepath with
           | Return _ =>
               (Return tt, {| self := self w; ticks := ticks w;
                              disk := disk w ++ [(filepath, image)] |})
           | Raise e => (Raise e, w)
           end.

(** [self.conversations[conversation_id]] *)
Definition get_item (conversation_id : string) : M Conversation :=
  fun w => match conversations (self w) !! conversation_id with
           | Some c => (Return c, w)
           | None => (Raise (Exc ("'" +:+ conversation_id +:+ "'")), w)
           end.

(** An in-place update of the conversation object stored under the id. *)
Definition update (conversation_id : string) (f : Conversation -> Conversation) : M unit :=
  modify (set_conversations (alter f conversation_id)).

(** [conversation["history"].append(message)] *)
Definition history_append (conversation_id : string) (message : Dict) : M unit :=
  update conversation_id (fun c => set_history (history c ++ [message]) c).

(** ** The methods of [GeminiClient] *)

(** [GeminiClient(api_key, model, max_history, output_dir)], once the
    constructor has returned: an empty store.
    [os.makedirs(output_dir, exist_ok=True)] writes no file. *)
Definition init (api_key model : string) (max_history : Z) (output_dir : string) : World :=
  {| self := {| api_key := api_key; model := model; max_history := max_history;
                output_dir := output_dir; conversations := ∅ |};
     ticks := 0%nat; disk := [] |}.

(** [conversation_id in self.conversations]; [None] is never a key. *)
Definition contains (conversation_id : option string) (w : World) : bool :=
  match conversation_id with
  | Some k => bool_decide (is_Some (conversations (self w) !! k))
  | None => false
  end.

(** The entry stored by [create_conversation], lines 59-64. *)
Definition new_conversation (chat : Chat) (created active : datetime) : Conversation :=
  {| chat := chat; history := []; created_at := created; last_active := active |}.

Definition create_conversation (env : Env) (conversation_id : option string) : M string :=
  let conversation_id :=
    match conversation_id with
    | None => uuid4 env
    | Some k => k
    end in
  mdl <- gets (fun w => model (self w)) ;;
  chat <- lift (chats_create env mdl) ;;
  created <- now env ;;
  active <- now env ;;
  modify (set_conversations
            (insert conversation_id (new_conversation chat created active))) ;;;
  ret conversation_id.

Definition get_conversation_history (conversation_id : string) : M (list Dict) :=
  present <- gets (contains (Some conversation_id)) ;;
  if negb present then ret []
  else (c <- get_item conversation_id ;; ret (history c)).

(** Lines 128-134: the path of the image found at position [i] and saved
    at time [t]. *)
Definition image_path (env : Env) (dir conversation_id : string) (t : datetime)
    (i : nat) : string :=
  let filename :=
    conversation_id +:+ "_" +:+ strftime env t +:+ "_" +:+ pretty i +:+ ".png" in
  os_path_join dir filename.

(** Lines 125-142: the loop over [enumerate(candidate.content.parts)],
    started at index [i] with the paths collected so far. *)
Fixpoint save_parts (env : Env) (conversation_id : string) (i : nat)
    (ps : list Part) (image_paths : list string) : M (list string) :=
  match ps with
  | [] => ret image_paths
  | part :: rest =>
      match inline_data part with
      | Some blob =>
          t <- now env ;;
          dir <- gets (fun w => output_dir (self w)) ;;
          (* os.makedirs(self.output_dir, exist_ok=True): no file, may raise *)
          lift (makedirs env dir) ;;;
          let filepath := image_path env dir conversation_id t i in
          image <- lift (Image_open env (BytesIO (data blob))) ;;
          Image_save env image filepath ;;;
          save_parts env conversation_id (S i) rest (image_paths ++ [filepath])
      | None => save_parts env conversation_id (S i) rest image_paths
      end
  end.

(** Lines 118-142: the images of the first candidate. An empty or absent
    list of candidates and an absent content are skipped; iterating over
    absent parts raises a [TypeError]. *)
Definition save_images (env : Env) (conversation_id : string)
    (response : GenerateContentResponse) : M (list string) :=
  match candidates response with
  | Some (candidate :: _) =>
      match content candidate with
      | Some c =>
          match parts c with
          | Some ps => save_parts env conversation_id 0 ps []
          | None => raise (Exc "'NoneType' object is not iterable")
          end
      | None => ret []
      end
  | _ => ret []
  end.

(** The dictionaries built by [send_message]. *)
Definition user_message (env : Env) (message : string) (t : datetime) : Dict :=
  {[ "role" := VStr "user"; "content" := VStr message;
     "timestamp" := VStr (isoformat env t) ]}.

Definition assistant_message (env : Env) (text_content : option string)
    (image_paths : list string) (t : datetime) : Dict :=
  {[ "role" := VStr "assistant"; "content" := of_optional_str text_content;
     "images" := of_str_list image_paths; "timestamp" := VStr (isoformat env t) ]}.

Definition error_message (env : Env) (e : Exception) (t : datetime) : Dict :=
  {[ "role" := VStr "system"; "content" := VStr ("Error: " +:+ str e);
     "timestamp" := VStr (isoformat env t) ]}.

Definition success_result (conversation_id : string) (text_content : option string)
    (image_paths : list string) : Dict :=
  {[ "conversation_id" := VStr conversation_id;
     "text" := of_optional_str text_content;
     "image_paths" := of_str_list image_paths;
     "success" := VBool true ]}.

Definition failure_result (conversation_id : string) (e : Exception) : Dict :=
  {[ "conversation_id" := VStr conversation_id; "error" := VStr (str e);
     "success" := VBool false ]}.

(** Lines 105-107: [h[-limit:]] when [len(h) > limit], else [h]. *)
Definition sliding_window (limit : Z) (h : list Dict) : list Dict :=
  if limit <? Z.of_nat (length h) then slice_from (- limit) h else h.

(** Lines 89-94: the conversation the exchange works on, created when the
    id is not a key. [conversation] is a reference to the stored object. *)
Definition find_or_create (env : Env) (conversation_id : option string)
    : M (string * Conversation) :=
  present <- gets (contains conversation_id) ;;
  conversation_id <-
    (if negb present then create_conversation env conversation_id
     else ret (default "" conversation_id)) ;;
  conversation <- get_item conversation_id ;;
  ret (conversation_id, conversation).

(** Lines 96-110: the user turn, the sliding window, the activity stamp. *)
Definition record_user_message (env : Env) (conversation_id message : string) : M unit :=
  t <- now env ;;
  history_append conversation_id (user_message env message t) ;;;
  limit <- gets (fun w => max_history (self w)) ;;
  update conversation_id (fun c => set_history (sliding_window limit (history c)) c) ;;;
  t <- now env ;;
  update conversation_id (set_last_active t).

(** Lines 112-173: the [try] block and its handler. *)
Definition exchange (env : Env) (conversation_id : string) (chat : Chat)
    (message : string) : M Dict :=
  try_except
    (response <- lift (chat_send env chat message) ;;
     let text_content := text response in
     image_paths <- save_images env conversation_id response ;;
     t <- now env ;;
     history_append conversation_id
       (assistant_message env text_content image_paths t) ;;;
     ret (success_result conversation_id text_content image_paths))
    (fun e =>
       t <- now env ;;
       history_append conversation_id (error_message env e t) ;;;
       ret (failure_result conversation_id e)).

Definition send_message (env : Env) (conversation_id : option string)
    (message : string) : M Dict :=
  found <- find_or_create env conversation_id ;;
  let '(conversation_id, conversation) := found in
  let chat := chat conversation in
  record_user_message env conversation_id message ;;;
  exchange env conversation_id chat message.

Definition reset_conversation (env : Env) (conversation_id : string) : M bool :=
  present <- gets (contains (Some conversation_id)) ;;
  if negb present then ret false
  else (create_conversation env (Some conversation_id) ;;; ret true).

Definition delete_conversation (conversation_id : string) : M bool :=
  present <- gets (contains (Some conversation_id)) ;;
  if negb present then ret false
  else (modify (set_conversations (delete conversation_id)) ;;; ret true).

(** A sequence of calls to [send_message], each with its own environment;
    the results are collected up to the first call that raises. *)
Fixpoint send_messages (calls : list (Env * option string * string)) (w : World)
    : list (outcome Dict) * World :=
  match calls with
  | [] => ([], w)
  | (env, conversation_id, message) :: rest =>
      match send_message env conversation_id message w with
      | (Return r, w') =>
          let '(rs, w'') := send_messages rest w' in (Return r :: rs, w'')
      | (Raise e, w') => ([Raise e], w')
      end
  end.

(** The history stored under an id, as the store has it. *)
Definition history_of (conversation_id : string) (w : World) : option (list Dict) :=
  history <$> conversations (self w) !! conversation_id.

(** ** Notions used to state the properties *)

(** The store with the entry under [k] set to [c]. *)
Definition store (k : string) (c : Conversation) (w : World) : World :=
  set_conversations (insert k c) w.

(** The world after [conversation["history"].append(m)] on the entry [k]. *)
Definition appended (k : string) (m : Dict) (w : World) : World :=
  set_conversations (alter (fun c => set_history (history c ++ [m]) c) k) w.

(** The entry left by lines 96-110 on the conversation [c]: the user turn
    stamped [t], the window, the activity stamp [t']. *)
Definition with_user_message (env : Env) (limit : Z) (message : string)
    (t t' : datetime) (c : Conversation) : Conversation :=
  {| chat := chat c;
     history := sliding_window limit (history c ++ [user_message env message t]);
     created_at := created_at c;
     last_active := t' |}.

(** The inline payloads among [ps] with their positions, counted from [i]:
    the parts on which the loop of lines 125-142 acts. *)
Fixpoint enumerate_inline (i : nat) (ps : list Part) : list (nat * Blob) :=
  match ps with
  | [] => []
  | part :: rest =>
      match inline_data part with
      | Some blob => (i, blob) :: enumerate_inline (S i) rest
      | None => enumerate_inline (S i) rest
      end
  end.

(** The inline payloads of the content parts that [send_message] reads,
    those of [response.candidates[0]]. *)
Definition inline_payloads (response : GenerateContentResponse) : list (nat * Blob) :=
  match candidates response with
  | Some (candidate :: _) =>
      match content candidate with
      | Some c => enumerate_inline 0 (default [] (parts c))
      | None => []
      end
  | _ => []
  end.

(** The paths the loop assigns to the payloads [pl] when its first reading
    of the clock is the [t0]-th. *)
Definition paths_for (env : Env) (dir k : string) (t0 : nat)
    (pl : list (nat * Blob)) : list string :=
  imap (fun j p => image_path env dir k (clock env (t0 + j)%nat) p.1) pl.

Definition decodes (env : Env) (p : nat * Blob) (image : Image) : Prop :=
  Image_open env (BytesIO (data p.2)) = Return image.

(** Each image is written to the path beside it without error. *)
Definition written (env : Env) (paths : list string) (images : list Image) : Prop :=
  Forall2 (fun filepath image => save env image filepath = Return tt) paths images.

(** ** A stub environment for running the code on examples *)

(** The remote answers every message with [reply]; chat sessions open
    without failure; the clock counts its readings; every payload decodes
    and every file is written. *)
Definition stub (reply : outcome GenerateContentResponse) : Env :=
  {| uuid4 := "3f2b8c1e-5a4d-4e6f-9b7a-0c1d2e3f4a5b";
     chats_create := fun _ => Return 0%nat;
     chat_send := fun _ _ => reply;
     clock := Z.of_nat;
     isoformat := pretty;
     strftime := pretty;
     Image_open := fun b => Return (Decoded b);
     makedirs := fun _ => Return tt;
     save := fun _ _ => Return tt |}.

(** The same, with a client whose chat sessions fail to open. *)
Definition offline (e : Exception) : Env :=
  {| uuid4 := "3f2b8c1e-5a4d-4e6f-9b7a-0c1d2e3f4a5b";
     chats_create := fun _ => Raise e;
     chat_send := fun _ _ => Raise e;
     clock := Z.of_nat;
     isoformat := pretty;
     strftime := pretty;
     Image_open := fun b => Return (Decoded b);
     makedirs := fun _ => Return tt;
     save := fun _ _ => Return tt |}.

Definition says (s : string) : outcome GenerateContentResponse :=
  Return {| text := Some s; candidates := None |}.

Definition part_text : Part := {| inline_data := None |}.
Definition part_image (b : list byte) : Part :=
  {| inline_data := Some {| data := Some b |} |}.

(** A reply whose first candidate holds an image, a text part and a
    second image. *)
Definition shows : outcome GenerateContentResponse :=
  Return {| text := Some "two pictures";
            candidates := Some [ {| content := Some {| parts := Some
              [part_image [x89; x50]; part_text; part_image [x4e; x47]] |} |} ] |}.

(** ** Sample runs *)

(** A client as [main.py] builds it, but for the size of the window. *)
Definition fresh (limit : Z) : World :=
  init "key" "gemini-2.0-flash-exp-image-generation" limit "output".

(** Three successful exchanges on the conversation ["c"]. *)
Definition three_calls : list (Env * option string * string) :=
  [(stub (says "a1"), Some "c", "u1");
   (stub (says "a2"), Some "c", "u2");
   (stub (says "a3"), Some "c", "u3")].

(** Sixteen successful exchanges on the conversation ["c"]. *)
Definition sixteen_calls : list (Env * option string * string) :=
  replicate 16 (stub (says "a"), Some "c", "u").

(** What a turn says and who says it. *)
Definition role_and_content (turn : Dict) : option value * option value :=
  (turn !! "role", turn !! "content").

Definition turns_of (k : string) (w : World)
    : option (list (option value * option value)) :=
  fmap (M := list) role_and_content <$> history_of k w.

(** The [success] field of the result of a call, if it returned. *)
Definition succeeded (o : outcome Dict) : option value :=
  match o with
  | Return r => r !! "success"
  | Raise _ => None
  end.

Definition quota : Exception := Exc "429 quota exceeded".
Definition timeout : Exception := Exc "timeout".
Definition silent : Exception := Exc "".
Definition refused : Exception := Exc "connection refused".

(** The conversation ["c"] as the first call on a fresh client opens it,
    the world then, and the world once the user turn ["hello"] is recorded. *)
Definition opened : Conversation := new_conversation 0%nat 0 1.

Definition opened_world (limit : Z) : World :=
  store "c" opened (advance 2 (fresh limit)).

Definition asked_world (env : Env) (limit : Z) : World :=
  store "c" (with_user_message env limit "hello" 2 3 opened)
    (advance 2 (opened_world limit)).

(** The world after an exchange that brought two pictures. *)
Definition pictured : World :=
  (send_message (stub shows) (Some "c") "draw" (fresh 30)).2.

(** A window of one entry and two failed exchanges. *)
Definition failed_once : World :=
  (send_message (stub (Raise timeout)) (Some "c") "u1" (fresh 1)).2.

Definition failed_twice : World :=
  (send_message (stub (Raise timeout)) (Some "c") "u2" failed_once).2.

(** ** The HTTP layer of [main.py] *)

(** [bool(v)] *)
Definition truthy (v : value) : bool :=
  match v with
  | VNone => false
  | VBool b => b
  | VStr s => negb (bool_decide (s = ""))
  | VList vs => negb (bool_decide (vs = []))
  end.

(** The items of [for x in v]: the elements of a list, the characters of a
    string; [None] and booleans are not iterable. *)
Definition iterate (v : value) : outcome (list value) :=
  match v with
  | VList vs => Return vs
  | VStr s => Return ((fun c => VStr (String c EmptyString)) <$> String.list_ascii_of_string s)
  | VBool _ => Raise (Exc "'bool' object is not iterable")
  | VNone => Raise (Exc "'NoneType' object is not iterable")
  end.

Fixpoint has_slash (p : string) : bool :=
  match p with
  | EmptyString => false
  | String c rest => bool_decide (c = "/"%char) || has_slash rest
  end.

(** [os.path.basename(p)] on POSIX: what follows the last slash. *)
Fixpoint basename (p : string) : string :=
  match p with
  | EmptyString => EmptyString
  | String c rest =>
      if has_slash rest then basename rest
      else if bool_decide (c = "/"%char) then rest
      else p
  end.

(** [os.path.basename(v)]: only a string is a path. *)
Definition basename_of (v : value) : outcome string :=
  match v with
  | VStr p => Return (basename p)
  | VList _ => Raise (Exc "expected str, bytes or os.PathLike object, not list")
  | VBool _ => Raise (Exc "expected str, bytes or os.PathLike object, not bool")
  | VNone => Raise (Exc "expected str, bytes or os.PathLike object, not NoneType")
  end.

(** The loop of lines 74-78 and of lines 98-101 of [main.py] over the items
    [paths]: falsy items are skipped, the others give [url filename]. *)
Fixpoint image_urls_loop (url : string -> string) (paths : list value)
    : outcome (list string) :=
  match paths with
  | [] => Return []
  | path :: rest =>
      if truthy path then
        match basename_of path with
        | Return filename =>
            match image_urls_loop url rest with
            | Return urls => Return (url filename :: urls)
            | Raise e => Raise e
            end
        | Raise e => Raise e
        end
      else image_urls_loop url rest
  end.

(** A reply of an endpoint: a body, or the [HTTPException] it raises. *)
Inductive reply (A : Type) : Type :=
  | OK (body : A)
  | HTTPException (status_code : nat) (detail : string).
Arguments OK {A} body.
Arguments HTTPException {A} status_code detail.

Module app.

(** Lines 69-83: one message of the history, copied and converted. *)
Definition convert_message (base_url : string) (message : Dict) : outcome Dict :=
  match message !! "images" with
  | Some images =>
      if truthy images then
        match iterate images with
        | Return paths =>
            match image_urls_loop (fun filename => base_url +:+ "/images/" +:+ filename)
                    paths with
            | Return image_urls =>
                Return (delete "images"
                          (<["image_urls" := of_str_list image_urls]> message))
            | Raise e => Raise e
            end
        | Raise e => Raise e
        end
      else Return message
  | None => Return message
  end.

Fixpoint convert_paths_to_urls (base_url : string) (history : list Dict)
    : outcome (list Dict) :=
  match history with
  | [] => Return []
  | message :: rest =>
      match convert_message base_url message with
      | Return message_copy =>
          match convert_paths_to_urls base_url rest with
          | Return updated_history => Return (message_copy :: updated_history)
          | Raise e => Raise e
          end
      | Raise e => Raise e
      end
  end.

(** [response.get(key, default)] *)
Definition get (response : Dict) (key : string) (default : value) : value :=
  match response !! key with
  | Some v => v
  | None => default
  end.

(** [POST /chat] *)
Definition chat (env : Env) (conversation_id : option string) (message : string)
    : M Dict :=
  response <- send_message env conversation_id message ;;
  paths <- lift (iterate (get response "image_paths" (VList []))) ;;
  image_urls <- lift (image_urls_loop (fun filename => "/images/" +:+ filename) paths) ;;
  match response !! "conversation_id" with
  | Some id =>
      ret ({[ "conversation_id" := id;
              "text" := get response "text" VNone;
              "image_urls" := of_str_list image_urls;
              "success" := get response "success" (VBool false);
              "error" := get response "error" VNone ]} : Dict)
  | None => raise (Exc "'conversation_id'")
  end.

(** [GET /conversations/{conversation_id}]: the body is the id and the
    converted history. *)
Definition get_conversation (conversation_id base_url : string)
    : M (reply (string * list Dict)) :=
  history <- get_conversation_history conversation_id ;;
  if bool_decide (history = []) then
    ret (HTTPException 404 "Conversation not found")
  else
    updated_history <- lift (convert_paths_to_urls base_url history) ;;
    ret (OK (conversation_id, updated_history)).

(** [POST /conversations/{conversation_id}/reset] *)
Definition reset_conversation (env : Env) (conversation_id : string)
    : M (reply Dict) :=
  success <- reset_conversation env conversation_id ;;
  if negb success then ret (HTTPException 404 "Conversation not found")
  else ret (OK ({[ "status" := VStr "success";
                   "message" := VStr "Conversation reset" ]} : Dict)).

(** [DELETE /conversations/{conversation_id}] *)
Definition delete_conversation (conversation_id : string) : M (reply Dict) :=
  success <- delete_conversation conversation_id ;;
  if negb success then ret (HTTPException 404 "Conversation not found")
  else ret (OK ({[ "status" := VStr "success";
                   "message" := VStr "Conversation deleted" ]} : Dict)).

End app.

(** ** Sequences of calls on one client *)

(** A call a user of the client can make. *)
Inductive call : Type :=
  | Create (env : Env) (conversation_id : option string)
  | Send (env : Env) (conversation_id : option string) (message : string)
  | Reset (env : Env) (conversation_id : string)
  | Delete (conversation_id : string)
  | History (conversation_id : string).

(** The world a call leaves, whether it returns or raises. *)
Definition after (c : call) (w : World) : World :=
  match c with
  | Create env id => (create_conversation env id w).2
  | Send env id message => (send_message env id message w).2
  | Reset env id => (reset_conversation env id w).2
  | Delete id => (delete_conversation id w).2
  | History id => (get_conversation_history id w).2
  end.

(** The world after the calls [cs], made in order. *)
Definition after_all (cs : list call) (w : World) : World :=
  foldl (fun w c => after c w) w cs.

(** ** Further notions used to state the properties *)

(** The settings of the client: everything but the store. *)
Definition settings (w : World) : string * string * Z * string :=
  (api_key (self w), model (self w), max_history (self w), output_dir (self w)).

(** The entry a call of [send_message] leaves: the window over the prior
    history and the user turn, then the turn [last]. *)
Definition exchanged (env : Env) (limit : Z) (message : string) (t : nat)
    (c : Conversation) (last : Dict) : Conversation :=
  {| chat := chat c;
     history := sliding_window limit (history c ++ [user_message env message (clock env t)])
                  ++ [last];
     created_at := created_at c;
     last_active := clock env (S t) |}.

(** The result of a call and the turn it appends last: the reply of the
    remote with its text and paths, or the error with its text. *)
Definition closes (env : Env) (k : string) (r last : Dict) : Prop :=
  (exists text_content image_paths t,
      r = success_result k text_content image_paths /\
      last = assistant_message env text_content image_paths t) \/
  (exists e t, r = failure_result k e /\ last = error_message env e t).

(** Every history of the store satisfies [P]. *)
Definition histories (P : list Dict -> Prop) (w : World) : Prop :=
  forall (k : string) (c : Conversation),
    conversations (self w) !! k = Some c -> P (history c).

(** A turn as the client builds them. *)
Definition client_turn (turn : Dict) : Prop :=
  (exists env message t, turn = user_message env message t) \/
  (exists env text_content image_paths t,
      turn = assistant_message env text_content image_paths t) \/
  (exists env e t, turn = error_message env e t).

(** The parts the loop of [send_message] runs over: those of the first
    candidate, none when there is no candidate or no content; [None] when
    the content has no list of parts, which the loop cannot iterate. *)
Definition response_parts (response : GenerateContentResponse) : option (list Part) :=
  match candidates response with
  | Some (candidate :: _) =>
      match content candidate with
      | Some c => parts c
      | None => Some []
      end
  | _ => Some []
  end.

(** The name given to the file of an image, line 129. *)
Definition image_filename (env : Env) (k : string) (t : datetime) (i : nat) : string :=
  k +:+ "_" +:+ strftime env t +:+ "_" +:+ pretty i +:+ ".png".

(** The URLs the loops of [main.py] build from a list of paths. *)
Definition urls_of (url : string -> string) (paths : list string) : list string :=
  (fun path => url (basename path)) <$> filter (fun path => path <> "") paths.

(** An assistant turn once its paths are turned into URLs. *)
Definition assistant_view (env : Env) (text_content : option string)
    (image_urls : list string) (t : datetime) : Dict :=
  {[ "role" := VStr "assistant"; "content" := of_optional_str text_content;
     "image_urls" := of_str_list image_urls; "timestamp" := VStr (isoformat env t) ]}.

(** The body of the reply of [POST /chat]. *)
Definition chat_body (k : string) (text_content : value) (image_urls : list string)
    (success : bool) (error : value) : Dict :=
  {[ "conversation_id" := VStr k; "text" := text_content;
     "image_urls" := of_str_list image_urls; "success" := VBool success;
     "error" := error ]}.

(** ** Further sample runs *)

(** The world after the remote answered ["hi"] to ["hello"] on a fresh
    client. *)
Definition answered_world (env : Env) (limit : Z) : World :=
  appended "c" (assistant_message env (Some "hi") [] 4)
    (advance 1 (asked_world env limit)).

(** An environment whose decoder refuses an empty payload, and whose clock
    stands still within one second. *)
Definition picky (reply : outcome GenerateContentResponse) : Env :=
  {| uuid4 := "3f2b8c1e-5a4d-4e6f-9b7a-0c1d2e3f4a5b";
     chats_create := fun _ => Return 0%nat;
     chat_send := fun _ _ => reply;
     clock := Z.of_nat;
     isoformat := pretty;
     strftime := fun _ => "20250101120000";
     Image_open := fun b =>
       match b with
       | [] => Raise (Exc "cannot identify image file")
       | _ => Return (Decoded b)
       end;
     makedirs := fun _ => Return tt;
     save := fun _ _ => Return tt |}.

Definition unreadable : Exception := Exc "cannot identify image file".

Definition unwritable : Exception := Exc "cannot write mode F as PNG".
Definition denied : Exception := Exc "[Errno 13] Permission denied: 'output'".

(** An environment whose encoder refuses the images that start with the
    byte [x4e]. *)
Definition lossy (reply : outcome GenerateContentResponse) : Env :=
  {| uuid4 := "3f2b8c1e-5a4d-4e6f-9b7a-0c1d2e3f4a5b";
     chats_create := fun _ => Return 0%nat;
     chat_send := fun _ _ => reply;
     clock := Z.of_nat;
     isoformat := pretty;
     strftime := pretty;
     Image_open := fun b => Return (Decoded b);
     makedirs := fun _ => Return tt;
     save := fun image _ =>
       match pixels image with
       | b :: _ => if Byte.eqb b x4e then Raise unwritable else Return tt
       | [] => Return tt
       end |}.

(** An environment in which the output directory cannot be created. *)
Definition sealed (reply : outcome GenerateContentResponse) : Env :=
  {| uuid4 := "3f2b8c1e-5a4d-4e6f-9b7a-0c1d2e3f4a5b";
     chats_create := fun _ => Return 0%nat;
     chat_send := fun _ _ => reply;
     clock := Z.of_nat;
     isoformat := pretty;
     strftime := pretty;
     Image_open := fun b => Return (Decoded b);
     makedirs := fun _ => Raise denied;
     save := fun _ _ => Return tt |}.

(** An environment whose chat sessions open with the handle [1]. *)
Definition reopened (reply : outcome GenerateContentResponse) : Env :=
  {| uuid4 := "3f2b8c1e-5a4d-4e6f-9b7a-0c1d2e3f4a5b";
     chats_create := fun _ => Return 1%nat;
     chat_send := fun _ _ => reply;
     clock := Z.of_nat;
     isoformat := pretty;
     strftime := pretty;
     Image_open := fun b => Return (Decoded b);
     makedirs := fun _ => Return tt;
     save := fun _ _ => Return tt |}.

(** A reply whose second image is empty. *)
Definition shows_broken : GenerateContentResponse :=
  {| text := Some "two pictures";
     candidates := Some [ {| content := Some {| parts := Some
       [part_image [x89; x50]; part_text; part_image []] |} |} ] |}.

(** The reply of [shows], as a response. *)
Definition two_pictures : GenerateContentResponse :=
  {| text := Some "two pictures";
     candidates := Some [ {| content := Some {| parts := Some
       [part_image [x89; x50]; part_text; part_image [x4e; x47]] |} |} ] |}.

(** A reply whose content has no list of parts. *)
Definition unparted : GenerateContentResponse :=
  {| text := None;
     candidates := Some [ {| content := Some {| parts := None |} |} ] |}.

Definition not_iterable : Exception := Exc "'NoneType' object is not iterable".

(** The parts of the sample replies, and two sample histories. *)
Definition three_parts : list Part :=
  [part_image [x89; x50]; part_text; part_image [x4e; x47]].
Definition broken_parts : list Part :=
  [part_image [x89; x50]; part_text; part_image []].

Definition sample_history : list Dict :=
  [user_message (stub shows) "draw" 2;
   assistant_message (stub shows) (Some "two pictures")
     ["output/c_4_0.png"; "output/c_5_2.png"] 6].

Definition hi_history : list Dict :=
  [user_message (stub (says "hi")) "hello" 2;
   assistant_message (stub (says "hi")) (Some "hi") [] 4].

(** * Properties *)

(** ** Slices and the sliding window *)

Lemma slice_from_negative {A : Type} (n : Z) (l : list A) :
  1 <= n -> n <= Z.of_nat (length l) ->
  slice_from (- n) l = drop (length l - Z.to_nat n) l.
Proof.
  intros Hn Hl. unfold slice_from, slice_start.
  destruct (Z.ltb_spec (- n) 0) as [_|]; [|lia].
  f_equal. lia.
Qed.

(** [l[-0:]] is [l[0:]], the whole list. *)
Lemma slice_from_zero {A : Type} (l : list A) : slice_from (- 0) l = l.
Proof. reflexivity. Qed.

Lemma sliding_window_small (limit : Z) (h : list Dict) :
  Z.of_nat (length h) <= limit -> sliding_window limit h = h.
Proof.
  intros Hle. unfold sliding_window.
  destruct (Z.ltb_spec limit (Z.of_nat (length h))); [lia | done].
Qed.

(** With a window of at least one entry, a longer history is cut down to
    its last [limit] entries. *)
Lemma sliding_window_recent (limit : Z) (h : list Dict) :
  1 <= limit -> limit < Z.of_nat (length h) ->
  sliding_window limit h = drop (length h - Z.to_nat limit) h.
Proof.
  intros H1 Hlt. unfold sliding_window.
  destruct (Z.ltb_spec limit (Z.of_nat (length h))); [|lia].
  apply slice_from_negative; lia.
Qed.

Lemma sliding_window_length (limit : Z) (h : list Dict) :
  1 <= limit -> Z.of_nat (length (sliding_window limit h)) <= limit.
Proof.
  intros H1. destruct (Z.le_gt_cases (Z.of_nat (length h)) limit) as [Hle|Hgt].
  - by rewrite sliding_window_small.
  - rewrite sliding_window_recent by lia. rewrite length_drop. lia.
Qed.

(** Whatever the limit, what the window keeps is a suffix: the oldest
    entries go first and the order of the rest is kept. *)
Lemma sliding_window_suffix (limit : Z) (h : list Dict) :
  sliding_window limit h `suffix_of` h.
Proof.
  unfold sliding_window, slice_from.
  destruct (_ <? _); [apply suffix_drop | done].
Qed.

(** A window of zero entries keeps the whole history. *)
Lemma sliding_window_zero (h : list Dict) : sliding_window 0 h = h.
Proof. unfold sliding_window. by destruct (_ <? _). Qed.

(** ** How each block of [send_message] runs *)

Section Blocks.
Variable env : Env.

Lemma contains_Some (k : string) (w : World) :
  contains (Some k) w = true <-> is_Some (conversations (self w) !! k).
Proof. unfold contains. by rewrite bool_decide_eq_true. Qed.

Lemma contains_lookup (k : string) (w : World) (c : Conversation) :
  conversations (self w) !! k = Some c -> contains (Some k) w = true.
Proof. intros H. apply contains_Some. by exists c. Qed.

Lemma contains_absent (k : string) (w : World) :
  conversations (self w) !! k = None -> contains (Some k) w = false.
Proof.
  intros H. unfold contains. apply bool_decide_eq_false.
  rewrite H. by intros [? ?].
Qed.

Lemma create_conversation_returns (id : option string) (w : World) (ch : Chat) :
  chats_create env (model (self w)) = Return ch ->
  create_conversation env id w =
    (Return (default (uuid4 env) id),
     store (default (uuid4 env) id)
       (new_conversation ch (clock env (ticks w)) (clock env (S (ticks w))))
       (advance 2 w)).
Proof.
  intros Hch. unfold create_conversation, bind, gets, lift. rewrite Hch.
  by destruct id.
Qed.

Lemma create_conversation_raises (id : option string) (w : World) (e : Exception) :
  chats_create env (model (self w)) = Raise e ->
  create_conversation env id w = (Raise e, w).
Proof.
  intros Hch. unfold create_conversation, bind, gets, lift. by rewrite Hch.
Qed.

Lemma find_existing (k : string) (w : World) (c : Conversation) :
  conversations (self w) !! k = Some c ->
  find_or_create env (Some k) w = (Return (k, c), w).
Proof.
  intros Hk. unfold find_or_create, bind, gets.
  rewrite (contains_lookup _ _ _ Hk). simpl.
  unfold get_item. by rewrite Hk.
Qed.

Lemma find_created (id : option string) (w : World) (ch : Chat) :
  contains id w = false ->
  chats_create env (model (self w)) = Return ch ->
  let k := default (uuid4 env) id in
  let c := new_conversation ch (clock env (ticks w)) (clock env (S (ticks w))) in
  find_or_create env id w = (Return (k, c), store k c (advance 2 w)).
Proof.
  intros Hid Hch k c. unfold find_or_create, bind, gets. rewrite Hid. simpl.
  rewrite (create_conversation_returns _ _ _ Hch). fold k c.
  unfold get_item, store. simpl. by rewrite lookup_insert_eq.
Qed.

(** A failure to open the chat session leaves [send_message] through
    line 91, outside the [try] block. *)
Lemma find_create_raises (id : option string) (w : World) (e : Exception) :
  contains id w = false ->
  chats_create env (model (self w)) = Raise e ->
  find_or_create env id w = (Raise e, w).
Proof.
  intros Hid Hch. unfold find_or_create, bind, gets. rewrite Hid. simpl.
  by rewrite (create_conversation_raises _ _ _ Hch).
Qed.

(** Whatever [find_or_create] returns is what the store holds. *)
Lemma find_or_create_stored (id : option string) (w w0 : World) (k : string)
    (c : Conversation) :
  find_or_create env id w = (Return (k, c), w0) ->
  conversations (self w0) !! k = Some c /\ disk w0 = disk w /\
  max_history (self w0) = max_history (self w) /\
  output_dir (self w0) = output_dir (self w).
Proof.
  intros Hf. destruct (contains id w) eqn:Hid.
  - destruct id as [k'|]; [|done].
    apply contains_Some in Hid as [c' Hc'].
    rewrite (find_existing _ _ _ Hc') in Hf. by simplify_eq.
  - destruct (chats_create env (model (self w))) as [ch|e] eqn:Hch.
    + rewrite (find_created _ _ _ Hid Hch) in Hf. simplify_eq.
      split; [|done]. unfold store. simpl. by rewrite lookup_insert_eq.
    + by rewrite (find_create_raises _ _ _ Hid Hch) in Hf.
Qed.

Lemma find_or_create_total (id : option string) (w : World) :
  contains id w = true \/ (exists ch, chats_create env (model (self w)) = Return ch) ->
  exists k c w0, find_or_create env id w = (Return (k, c), w0).
Proof.
  intros Hok. destruct (contains id w) eqn:Hid.
  - destruct id as [k|]; [|done].
    apply contains_Some in Hid as [c Hc]. exists k, c, w. by apply find_existing.
  - destruct Hok as [|[ch Hch]]; [done|].
    eexists _, _, _. by apply find_created.
Qed.

Lemma record_user_message_runs (k message : string) (w : World) (c : Conversation) :
  conversations (self w) !! k = Some c ->
  record_user_message env k message w =
    (Return tt,
     store k (with_user_message env (max_history (self w)) message
                (clock env (ticks w)) (clock env (S (ticks w))) c)
       (advance 2 w)).
Proof.
  intros Hk. unfold record_user_message, bind, now, history_append, update, modify, gets.
  simpl. f_equal. unfold store, set_conversations, advance. simpl.
  f_equal. f_equal.
  rewrite (alter_alt_Some _ _ _ _ Hk).
  by rewrite !alter_insert_eq.
Qed.

Lemma history_of_appended (k : string) (m : Dict) (w : World) :
  history_of k (appended k m w) = (fun h : list Dict => h ++ [m]) <$> history_of k w.
Proof.
  unfold history_of, appended. simpl. rewrite lookup_alter_eq.
  by destruct (conversations (self w) !! k).
Qed.

Lemma lookup_appended (k : string) (m : Dict) (w : World) (c : Conversation) :
  conversations (self w) !! k = Some c ->
  conversations (self (appended k m w)) !! k =
    Some (set_history (history c ++ [m]) c).
Proof. intros Hk. unfold appended. simpl. by rewrite lookup_alter_eq, Hk. Qed.

Lemma paths_for_cons (dir k : string) (t0 : nat) (p : nat * Blob)
    (pl : list (nat * Blob)) :
  paths_for env dir k t0 (p :: pl) =
    image_path env dir k (clock env t0) p.1 :: paths_for env dir k (S t0) pl.
Proof.
  unfold paths_for. rewrite imap_cons. f_equal.
  - by rewrite Nat.add_0_r.
  - apply imap_ext. intros j q _. simpl. by rewrite Nat.add_succ_r.
Qed.

(** When the loop returns, every payload was decoded and saved, in order,
    one clock reading and one file each. *)
Lemma save_parts_returns (k : string) (ps : list Part) :
  forall (i : nat) (acc : list string) (w w' : World) (paths : list string),
  save_parts env k i ps acc w = (Return paths, w') ->
  exists images : list Image,
    Forall2 (decodes env) (enumerate_inline i ps) images /\
    paths = acc ++ paths_for env (output_dir (self w)) k (ticks w) (enumerate_inline i ps) /\
    w' = {| self := self w;
            ticks := (length (enumerate_inline i ps) + ticks w)%nat;
            disk := disk w ++
              zip (paths_for env (output_dir (self w)) k (ticks w) (enumerate_inline i ps))
                  images |}.
Proof.
  induction ps as [|part rest IH]; intros i acc w w' paths Hrun; simpl in *.
  - exists []. unfold ret in Hrun. simplify_eq. split; [constructor|].
    rewrite !app_nil_r. split; [done|]. by destruct w'.
  - destruct (inline_data part) as [blob|]; [|by apply IH].
    unfold bind, now, gets, lift in Hrun. simpl in Hrun.
    destruct (makedirs env (output_dir (self w))) as [[]|e]; [|done].
    simpl in Hrun.
    destruct (Image_open env (BytesIO (data blob))) as [image|e] eqn:Hopen; [|done].
    simpl in Hrun. unfold Image_save in Hrun. simpl in Hrun.
    destruct (save env image _) as [[]|e]; [|done].
    simpl in Hrun. apply IH in Hrun as (images & Hdec & -> & ->).
    exists (image :: images). split; [by constructor|].
    rewrite paths_for_cons. simpl. rewrite <-!app_assoc. simpl.
    split; [done|]. f_equal. lia.
Qed.

(** The loop touches neither the client object nor the files already
    written, whether it returns or raises. *)
Lemma save_parts_frame (k : string) (ps : list Part) :
  forall (i : nat) (acc : list string) (w w' : World) (o : outcome (list string)),
  save_parts env k i ps acc w = (o, w') ->
  self w' = self w /\ disk w `prefix_of` disk w'.
Proof.
  induction ps as [|part rest IH]; intros i acc w w' o Hrun; simpl in *.
  - unfold ret in Hrun. by simplify_eq.
  - destruct (inline_data part) as [blob|]; [|by eapply IH].
    unfold bind, now, gets, lift in Hrun. simpl in Hrun.
    destruct (makedirs env (output_dir (self w))) as [[]|e]; simpl in Hrun;
      [|by simplify_eq].
    destruct (Image_open env (BytesIO (data blob))) as [image|e]; simpl in Hrun;
      [|by simplify_eq].
    unfold Image_save in Hrun. simpl in Hrun.
    destruct (save env image _) as [[]|e]; simpl in Hrun.
    + apply IH in Hrun as [-> Hpre]. split; [done|].
      etrans; [|exact Hpre]. simpl. by apply prefix_app_r.
    + by simplify_eq.
Qed.

Lemma save_images_frame (k : string) (response : GenerateContentResponse)
    (w w' : World) (o : outcome (list string)) :
  save_images env k response w = (o, w') ->
  self w' = self w /\ disk w `prefix_of` disk w'.
Proof.
  unfold save_images. intros Hrun.
  destruct (candidates response) as [[|candidate ?]|];
    try (unfold ret in Hrun; by simplify_eq).
  destruct (content candidate) as [c|];
    try (unfold ret in Hrun; by simplify_eq).
  destruct (parts c) as [ps|].
  - by eapply save_parts_frame.
  - unfold raise in Hrun. by simplify_eq.
Qed.

Lemma save_images_returns (k : string) (response : GenerateContentResponse)
    (w w' : World) (paths : list string) :
  save_images env k response w = (Return paths, w') ->
  exists images : list Image,
    Forall2 (decodes env) (inline_payloads response) images /\
    paths = paths_for env (output_dir (self w)) k (ticks w) (inline_payloads response) /\
    w' = {| self := self w;
            ticks := (length (inline_payloads response) + ticks w)%nat;
            disk := disk w ++ zip paths images |}.
Proof.
  unfold save_images, inline_payloads. intros Hrun.
  destruct (candidates response) as [[|candidate ?]|];
    try (unfold ret in Hrun; simplify_eq; exists []; split; [constructor|];
         rewrite app_nil_r; split; [done|]; by destruct w').
  destruct (content candidate) as [c|];
    try (unfold ret in Hrun; simplify_eq; exists []; split; [constructor|];
         rewrite app_nil_r; split; [done|]; by destruct w').
  destruct (parts c) as [ps|]; [|done].
  apply save_parts_returns in Hrun as (images & Hdec & -> & ->).
  exists images. by rewrite app_nil_l.
Qed.

(** The two ways [exchange] ends; it never raises. *)
Lemma exchange_cases (k : string) (ch : Chat) (message : string) (w : World) :
  (exists response paths w1,
      chat_send env ch message = Return response /\
      save_images env k response w = (Return paths, w1) /\
      exchange env k ch message w =
        (Return (success_result k (text response) paths),
         appended k (assistant_message env (text response) paths (clock env (ticks w1)))
           (advance 1 w1))) \/
  (exists e w1,
      (chat_send env ch message = Raise e /\ w1 = w \/
       exists response, chat_send env ch message = Return response /\
                        save_images env k response w = (Raise e, w1)) /\
      exchange env k ch message w =
        (Return (failure_result k e),
         appended k (error_message env e (clock env (ticks w1))) (advance 1 w1))).
Proof.
  unfold exchange, try_except, bind, lift.
  destruct (chat_send env ch message) as [response|e] eqn:Hsend.
  - destruct (save_images env k response w) as [[paths|e] w1] eqn:Himages.
    + left. by exists response, paths, w1.
    + right. exists e, w1. split; [right; by exists response|done].
  - right. exists e, w. split; [by left|done].
Qed.

(** The exchange once the remote has answered: its end follows the saving
    of the images. *)
Lemma exchange_after_images (k : string) (ch : Chat) (message : string)
    (w w1 : World) (response : GenerateContentResponse) (o : outcome (list string)) :
  chat_send env ch message = Return response ->
  save_images env k response w = (o, w1) ->
  exchange env k ch message w =
    match o with
    | Return paths =>
        (Return (success_result k (text response) paths),
         appended k (assistant_message env (text response) paths (clock env (ticks w1)))
           (advance 1 w1))
    | Raise e =>
        (Return (failure_result k e),
         appended k (error_message env e (clock env (ticks w1))) (advance 1 w1))
    end.
Proof.
  intros Hsend Himages. unfold exchange, try_except, bind, lift.
  rewrite Hsend, Himages. by destruct o.
Qed.

(** [send_message] once the conversation is found: the user turn is
    recorded, then the exchange runs on the world so obtained. *)
Lemma send_message_runs (id : option string) (message : string) (w w0 : World)
    (k : string) (c : Conversation) :
  find_or_create env id w = (Return (k, c), w0) ->
  send_message env id message w =
    exchange env k (chat c) message
      (store k (with_user_message env (max_history (self w)) message
                  (clock env (ticks w0)) (clock env (S (ticks w0))) c)
         (advance 2 w0)).
Proof.
  intros Hf. destruct (find_or_create_stored _ _ _ _ _ Hf) as (Hk & _ & Hmax & _).
  unfold send_message, bind at 1. rewrite Hf. unfold bind.
  by rewrite (record_user_message_runs _ _ _ _ Hk), Hmax.
Qed.

End Blocks.

(** ** The length of the history after a call *)

(** With a window of at least one entry, the history left by a call holds
    at most one entry more than the window: the reply or the error turn is
    appended after the window was applied. *)
Lemma send_message_history_bound (env : Env) (id : option string)
    (message : string) (w w0 : World) (k : string) (c : Conversation) :
  1 <= max_history (self w) ->
  find_or_create env id w = (Return (k, c), w0) ->
  exists (h : list Dict),
    history_of k (send_message env id message w).2 = Some h /\
    Z.of_nat (length h) <= max_history (self w) + 1.
Proof.
  intros Hmax Hf. rewrite (send_message_runs _ _ _ _ _ _ _ Hf).
  set (c1 := with_user_message _ _ _ _ _ _).
  set (w1 := store k c1 _).
  assert (forall (w2 : World) (m : Dict),
            self w2 = self w1 ->
            exists h, history_of k (appended k m (advance 1 w2)) = Some h /\
                      Z.of_nat (length h) <= max_history (self w) + 1) as Happ.
  { intros w2 m Hself. rewrite history_of_appended. unfold history_of. simpl.
    rewrite Hself. unfold w1, store. simpl. rewrite lookup_insert_eq. simpl.
    eexists. split; [done|]. rewrite length_app. simpl.
    pose proof (sliding_window_length (max_history (self w))
                  (history c ++ [user_message env message (clock env (ticks w0))]) Hmax).
    lia. }
  destruct (exchange_cases env k (chat c) message w1)
    as [(response & paths & w2 & _ & Himages & ->)|(e & w2 & Hcase & ->)]; simpl.
  - apply Happ. by apply save_images_frame in Himages as [-> _].
  - apply Happ. destruct Hcase as [[_ ->]|(response & _ & Himages)]; [done|].
    by apply save_images_frame in Himages as [-> _].
Qed.

(** C1. The history is not kept within the window: the window is applied
    after the user turn only, and the reply appended afterwards is not
    counted. With a window of 2 the history holds 3 turns after the second
    exchange; with the default window of 30 it holds 31 after the
    sixteenth. *)
Theorem history_exceeds_window_after_reply :
  (max_history (self (send_messages (take 2 three_calls) (fresh 2)).2) = 2 /\
   length <$> history_of "c" (send_messages (take 2 three_calls) (fresh 2)).2
     = Some 3%nat) /\
  (max_history (self (send_messages sixteen_calls (fresh 30)).2) = 30 /\
   length <$> history_of "c" (send_messages sixteen_calls (fresh 30)).2
     = Some 31%nat).
Proof. split; split; vm_compute; reflexivity. Qed.

(** C2. With a window of 2, three successful exchanges leave three turns,
    not two: the second reply, the third user turn and the third reply. *)
Theorem three_exchanges_leave_three_turns :
  succeeded <$> (send_messages three_calls (fresh 2)).1 =
    [Some (VBool true); Some (VBool true); Some (VBool true)] /\
  turns_of "c" (send_messages three_calls (fresh 2)).2 =
    Some [(Some (VStr "assistant"), Some (VStr "a2"));
          (Some (VStr "user"), Some (VStr "u3"));
          (Some (VStr "assistant"), Some (VStr "a3"))].
Proof. split; vm_compute; reflexivity. Qed.

(** C6. With a window of zero entries nothing is dropped: [h[-0:]] is the
    whole list. The user turn just appended stays, and three exchanges
    leave all six turns. *)
Theorem window_of_zero_keeps_history :
  max_history (self (opened_world 0)) = 0 /\
  turns_of "c" (opened_world 0) = Some [] /\
  turns_of "c" (record_user_message (stub (says "hi")) "c" "hello" (opened_world 0)).2
    = Some [(Some (VStr "user"), Some (VStr "hello"))] /\
  length <$> history_of "c" (send_messages three_calls (fresh 0)).2 = Some 6%nat.
Proof. repeat split; vm_compute; reflexivity. Qed.

(** ** The failure path *)

(** C3 (amended). When the remote call fails, then relative to the world in
    which it was issued (user turn recorded, window applied) the history
    grows by exactly one [system] turn whose content is ["Error: "]
    followed by the text of the failure, hence not empty; the result has
    [success] false and carries that text as [error], not empty when the
    text is not; no file is written. *)
Theorem remote_failure_appends_system_turn (env : Env) (id : option string)
    (message : string) (w w0 w1 : World) (k : string) (c : Conversation)
    (e : Exception) :
  find_or_create env id w = (Return (k, c), w0) ->
  record_user_message env k message w0 = (Return tt, w1) ->
  chat_send env (chat c) message = Raise e ->
  exists (h1 : list Dict) (turn : Dict) (w2 : World),
    send_message env id message w = (Return (failure_result k e), w2) /\
    history_of k w1 = Some h1 /\
    history_of k w2 = Some (h1 ++ [turn]) /\
    turn !! "role" = Some (VStr "system") /\
    turn !! "content" = Some (VStr ("Error: " +:+ str e)) /\
    "Error: " +:+ str e <> "" /\
    failure_result k e !! "success" = Some (VBool false) /\
    failure_result k e !! "error" = Some (VStr (str e)) /\
    (str e <> "" -> failure_result k e !! "error" <> Some (VStr "")) /\
    disk w2 = disk w.
Proof.
  intros Hf Hrec Hsend.
  destruct (find_or_create_stored _ _ _ _ _ _ Hf) as (Hk & Hdisk & Hmax & _).
  rewrite (record_user_message_runs _ _ _ _ _ Hk) in Hrec. simplify_eq.
  rewrite (send_message_runs _ _ _ _ _ _ _ Hf). rewrite <-Hmax.
  set (w1 := store k _ _).
  destruct (exchange_cases env k (chat c) message w1)
    as [(r & ? & ? & Hr & _)|(e' & w1' & [[He ->]|(r & Hr & _)] & ->)];
    [congruence| |congruence].
  rewrite Hsend in He. simplify_eq.
  eexists _, (error_message env e' (clock env (ticks w1))), _.
  split; [done|]. split.
  { unfold history_of, w1, store. simpl. by rewrite lookup_insert_eq. }
  split.
  { rewrite history_of_appended. unfold history_of, w1, store. simpl.
    by rewrite lookup_insert_eq. }
  repeat split; try done.
  intros Hne. simpl. unfold failure_result.
  change (Some (VStr (str e')) <> Some (VStr "")). congruence.
Qed.

Lemma remote_failure_appends_system_turn_witness :
  find_or_create (stub (Raise quota)) (Some "c") (fresh 30) =
    (Return ("c", opened), opened_world 30) /\
  record_user_message (stub (Raise quota)) "c" "hello" (opened_world 30) =
    (Return tt, asked_world (stub (Raise quota)) 30) /\
  chat_send (stub (Raise quota)) (chat opened) "hello" = Raise quota /\
  exists (h1 : list Dict) (turn : Dict) (w2 : World),
    send_message (stub (Raise quota)) (Some "c") "hello" (fresh 30) =
      (Return (failure_result "c" quota), w2) /\
    history_of "c" (asked_world (stub (Raise quota)) 30) = Some h1 /\
    history_of "c" w2 = Some (h1 ++ [turn]) /\
    turn !! "role" = Some (VStr "system") /\
    turn !! "content" = Some (VStr ("Error: " +:+ str quota)) /\
    "Error: " +:+ str quota <> "" /\
    failure_result "c" quota !! "success" = Some (VBool false) /\
    failure_result "c" quota !! "error" = Some (VStr (str quota)) /\
    (str quota <> "" -> failure_result "c" quota !! "error" <> Some (VStr "")) /\
    disk w2 = disk (fresh 30).
Proof.
  split; [reflexivity|]. split; [reflexivity|]. split; [reflexivity|].
  apply (remote_failure_appends_system_turn (stub (Raise quota)) (Some "c") "hello"
           (fresh 30) (opened_world 30) (asked_world (stub (Raise quota)) 30)
           "c" opened quota); reflexivity.
Defined.

(** C3 as stated fails: a failure whose text is empty gives a result with
    [success] false and an empty [error]. *)
Lemma remote_failure_with_empty_description :
  (send_message (stub (Raise silent)) (Some "c") "hello" (fresh 30)).1 =
    Return (failure_result "c" silent) /\
  failure_result "c" silent !! "success" = Some (VBool false) /\
  failure_result "c" silent !! "error" = Some (VStr "").
Proof. repeat split; reflexivity. Qed.

(** C9 (amended). When the remote call fails, the user turn and the
    activity stamp stay: the history is the window of lines 105-107 applied
    to the prior history extended by the user turn, followed by the error
    turn, and it is the prior history extended by exactly these two turns
    whenever the prior history is shorter than the window; the chat handle
    and the creation stamp are those the conversation had. *)
Theorem failed_exchange_keeps_user_turn (env : Env) (id : option string)
    (message : string) (w w0 : World) (k : string) (c : Conversation)
    (e : Exception) :
  find_or_create env id w = (Return (k, c), w0) ->
  chat_send env (chat c) message = Raise e ->
  exists w' : World,
    send_message env id message w = (Return (failure_result k e), w') /\
    conversations (self w') !! k = Some
      {| chat := chat c;
         history :=
           sliding_window (max_history (self w))
             (history c ++ [user_message env message (clock env (ticks w0))])
           ++ [error_message env e (clock env (ticks w0 + 2)%nat)];
         created_at := created_at c;
         last_active := clock env (S (ticks w0)) |} /\
    (Z.of_nat (length (history c)) < max_history (self w) ->
     history_of k w' =
       Some (history c ++
             [user_message env message (clock env (ticks w0));
              error_message env e (clock env (ticks w0 + 2)%nat)])).
Proof.
  intros Hf Hsend.
  set (user := user_message env message (clock env (ticks w0))).
  set (failure := error_message env e (clock env (ticks w0 + 2)%nat)).
  rewrite (send_message_runs _ _ _ _ _ _ _ Hf).
  set (w1 := store k _ _).
  destruct (exchange_cases env k (chat c) message w1)
    as [(r & ? & ? & Hr & _)|(e' & w1' & [[He ->]|(r & Hr & _)] & ->)];
    [congruence| |congruence].
  rewrite Hsend in He. simplify_eq.
  assert (conversations (self (appended k
            (error_message env e' (clock env (ticks w1))) (advance 1 w1))) !! k =
          Some {| chat := chat c;
                  history := sliding_window (max_history (self w)) (history c ++ [user])
                               ++ [failure];
                  created_at := created_at c;
                  last_active := clock env (S (ticks w0)) |}) as Hlook.
  { erewrite lookup_appended; last first.
    { unfold w1, store. simpl. apply lookup_insert_eq. }
    unfold failure, w1. simpl. by rewrite Nat.add_comm. }
  eexists. split; [done|]. split; [exact Hlook|].
  intros Hshort. unfold history_of. rewrite Hlook. simpl.
  rewrite sliding_window_small.
  - by rewrite <-app_assoc.
  - rewrite length_app. simpl. lia.
Qed.

Lemma failed_exchange_keeps_user_turn_witness :
  find_or_create (stub (Raise quota)) (Some "c") (fresh 30) =
    (Return ("c", opened), opened_world 30) /\
  chat_send (stub (Raise quota)) (chat opened) "hello" = Raise quota /\
  exists w' : World,
    send_message (stub (Raise quota)) (Some "c") "hello" (fresh 30) =
      (Return (failure_result "c" quota), w') /\
    conversations (self w') !! "c" = Some
      {| chat := chat opened;
         history :=
           sliding_window (max_history (self (fresh 30)))
             (history opened ++ [user_message (stub (Raise quota)) "hello" 2])
           ++ [error_message (stub (Raise quota)) quota 4];
         created_at := created_at opened;
         last_active := 3 |} /\
    (Z.of_nat (length (history opened)) < max_history (self (fresh 30)) ->
     history_of "c" w' =
       Some (history opened ++
             [user_message (stub (Raise quota)) "hello" 2;
              error_message (stub (Raise quota)) quota 4])).
Proof.
  split; [reflexivity|]. split; [reflexivity|].
  apply (failed_exchange_keeps_user_turn (stub (Raise quota)) (Some "c") "hello"
           (fresh 30) (opened_world 30) "c" opened quota); reflexivity.
Defined.

(** C9 as stated fails: with a window of one entry, a second failed
    exchange leaves the new user turn and its error turn only, not the two
    prior turns extended by them. *)
Lemma failed_exchange_after_full_window :
  max_history (self failed_once) = 1 /\
  turns_of "c" failed_once =
    Some [(Some (VStr "user"), Some (VStr "u1"));
          (Some (VStr "system"), Some (VStr "Error: timeout"))] /\
  turns_of "c" failed_twice =
    Some [(Some (VStr "user"), Some (VStr "u2"));
          (Some (VStr "system"), Some (VStr "Error: timeout"))] /\
  history_of "c" failed_twice <>
    (fun prior : list Dict =>
       prior ++ [user_message (stub (Raise timeout)) "u2" 5;
                 error_message (stub (Raise timeout)) timeout 7])
    <$> history_of "c" failed_once.
Proof.
  split; [vm_compute; reflexivity|].
  split; [vm_compute; reflexivity|].
  split; [vm_compute; reflexivity|].
  intros Heq. apply (f_equal (fmap length)) in Heq.
  vm_compute in Heq. discriminate Heq.
Qed.

(** ** Results *)

(** C4 (amended). When the conversation exists or is created without
    failure, every failure of the exchange (the remote call, the reading of
    the response, the decoding of an image) is turned into a result: the
    call returns a dictionary with the conversation id and [success], and
    with an [error] exactly when [success] is false. *)
Theorem send_message_returns_result (env : Env) (id : option string)
    (message : string) (w : World) :
  contains id w = true \/ (exists ch, chats_create env (model (self w)) = Return ch) ->
  exists (r : Dict) (w' : World) (k : string),
    send_message env id message w = (Return r, w') /\
    r !! "conversation_id" = Some (VStr k) /\
    ((r !! "success" = Some (VBool true) /\ r !! "error" = None) \/
     (r !! "success" = Some (VBool false) /\
      exists description, r !! "error" = Some (VStr description))).
Proof.
  intros Hok. destruct (find_or_create_total env id w Hok) as (k & c & w0 & Hf).
  rewrite (send_message_runs _ _ _ _ _ _ _ Hf).
  set (w1 := store k _ _).
  destruct (exchange_cases env k (chat c) message w1)
    as [(response & paths & w2 & _ & _ & ->)|(e & w2 & _ & ->)].
  - eexists _, _, k. split; [done|]. split; [done|]. by left.
  - eexists _, _, k. split; [done|]. split; [done|]. right. split; [done|].
    by exists (str e).
Qed.

Lemma send_message_returns_result_witness :
  (contains (Some "c") (fresh 30) = true \/
   exists ch, chats_create (stub (says "hi")) (model (self (fresh 30))) = Return ch) /\
  exists (r : Dict) (w' : World) (k : string),
    send_message (stub (says "hi")) (Some "c") "hello" (fresh 30) = (Return r, w') /\
    r !! "conversation_id" = Some (VStr k) /\
    ((r !! "success" = Some (VBool true) /\ r !! "error" = None) \/
     (r !! "success" = Some (VBool false) /\
      exists description, r !! "error" = Some (VStr description))).
Proof.
  split.
  - right. exists 0%nat. reflexivity.
  - apply (send_message_returns_result (stub (says "hi")) (Some "c") "hello" (fresh 30)).
    right. exists 0%nat. reflexivity.
Defined.

(** C4 as stated fails: when the chat session of an unknown id cannot be
    opened, the call raises and returns no result. *)
Lemma creation_failure_reaches_caller :
  contains (Some "c") (fresh 30) = false /\
  send_message (offline refused) (Some "c") "hello" (fresh 30) =
    (Raise refused, fresh 30).
Proof. split; reflexivity. Qed.

(** C10. Once the conversation is found and the user turn recorded, the
    result follows the path the [try] block takes. On the success path
    (the remote call returns a response and the images of the response are
    saved) the call returns a result with exactly the fields
    [conversation_id], [text], [image_paths], [success], with [success]
    true and no [error]. On the failure path (the remote call raises, or
    the saving of the images raises) it returns a result with exactly the
    fields [conversation_id], [error], [success], with [success] false and
    neither [text] nor [image_paths]. *)
Theorem send_message_result_fields (env : Env) (id : option string)
    (message : string) (w w0 w1 : World) (k : string) (c : Conversation) :
  find_or_create env id w = (Return (k, c), w0) ->
  record_user_message env k message w0 = (Return tt, w1) ->
  (forall (response : GenerateContentResponse) (paths : list string) (w2 : World),
     chat_send env (chat c) message = Return response ->
     save_images env k response w1 = (Return paths, w2) ->
     exists (r : Dict) (w' : World),
       send_message env id message w = (Return r, w') /\
       r !! "success" = Some (VBool true) /\
       dom r = ({[ "conversation_id"; "text"; "image_paths"; "success" ]} : gset string) /\
       r !! "error" = None) /\
  (forall e : Exception,
     chat_send env (chat c) message = Raise e \/
     (exists (response : GenerateContentResponse) (w2 : World),
        chat_send env (chat c) message = Return response /\
        save_images env k response w1 = (Raise e, w2)) ->
     exists (r : Dict) (w' : World),
       send_message env id message w = (Return r, w') /\
       r !! "success" = Some (VBool false) /\
       dom r = ({[ "conversation_id"; "error"; "success" ]} : gset string) /\
       r !! "text" = None /\ r !! "image_paths" = None).
Proof.
  intros Hf Hrec.
  destruct (find_or_create_stored _ _ _ _ _ _ Hf) as (Hk & _ & Hmax & _).
  rewrite (record_user_message_runs _ _ _ _ _ Hk), Hmax in Hrec.
  apply (f_equal snd) in Hrec.
  change (store k (with_user_message env (max_history (self w)) message
                     (clock env (ticks w0)) (clock env (S (ticks w0))) c)
            (advance 2 w0) = w1) in Hrec.
  rewrite (send_message_runs _ _ _ _ _ _ _ Hf), Hrec.
  split.
  - intros response paths w2 Hsend Himages.
    rewrite (exchange_after_images env k (chat c) message w1 w2 response
               (Return paths) Hsend Himages).
    by eexists _, _.
  - intros e [Hsend|(response & w2 & Hsend & Himages)].
    + unfold exchange, try_except, bind, lift. rewrite Hsend.
      by eexists _, _.
    + rewrite (exchange_after_images env k (chat c) message w1 w2 response
                 (Raise e) Hsend Himages).
      by eexists _, _.
Qed.

Lemma send_message_result_fields_witness :
  (find_or_create (stub shows) (Some "c") (fresh 30) =
     (Return ("c", opened), opened_world 30) /\
   record_user_message (stub shows) "c" "hello" (opened_world 30) =
     (Return tt, asked_world (stub shows) 30) /\
   chat_send (stub shows) (chat opened) "hello" = Return two_pictures /\
   save_images (stub shows) "c" two_pictures (asked_world (stub shows) 30) =
     (Return ["output/c_4_0.png"; "output/c_5_2.png"],
      {| self := self (asked_world (stub shows) 30);
         ticks := 6;
         disk := [("output/c_4_0.png", Decoded [x89; x50]);
                  ("output/c_5_2.png", Decoded [x4e; x47])] |}) /\
   exists (r : Dict) (w' : World),
     send_message (stub shows) (Some "c") "hello" (fresh 30) = (Return r, w') /\
     r !! "success" = Some (VBool true) /\
     dom r = ({[ "conversation_id"; "text"; "image_paths"; "success" ]} : gset string) /\
     r !! "error" = None) /\
  (find_or_create (stub (Raise quota)) (Some "c") (fresh 30) =
     (Return ("c", opened), opened_world 30) /\
   record_user_message (stub (Raise quota)) "c" "hello" (opened_world 30) =
     (Return tt, asked_world (stub (Raise quota)) 30) /\
   chat_send (stub (Raise quota)) (chat opened) "hello" = Raise quota /\
   exists (r : Dict) (w' : World),
     send_message (stub (Raise quota)) (Some "c") "hello" (fresh 30) = (Return r, w') /\
     r !! "success" = Some (VBool false) /\
     dom r = ({[ "conversation_id"; "error"; "success" ]} : gset string) /\
     r !! "text" = None /\ r !! "image_paths" = None) /\
  (find_or_create (picky (Return shows_broken)) (Some "c") (fresh 30) =
     (Return ("c", opened), opened_world 30) /\
   record_user_message (picky (Return shows_broken)) "c" "hello" (opened_world 30) =
     (Return tt, asked_world (picky (Return shows_broken)) 30) /\
   chat_send (picky (Return shows_broken)) (chat opened) "hello" = Return shows_broken /\
   save_images (picky (Return shows_broken)) "c" shows_broken
       (asked_world (picky (Return shows_broken)) 30) =
     (Raise unreadable,
      {| self := self (asked_world (picky (Return shows_broken)) 30);
         ticks := 6;
         disk := [("output/c_20250101120000_0.png", Decoded [x89; x50])] |}) /\
   exists (r : Dict) (w' : World),
     send_message (picky (Return shows_broken)) (Some "c") "hello" (fresh 30) =
       (Return r, w') /\
     r !! "success" = Some (VBool false) /\
     dom r = ({[ "conversation_id"; "error"; "success" ]} : gset string) /\
     r !! "text" = None /\ r !! "image_paths" = None).
Proof.
  split; [|split].
  - split; [reflexivity|]. split; [reflexivity|]. split; [reflexivity|].
    split; [reflexivity|].
    apply (proj1 (send_message_result_fields (stub shows) (Some "c") "hello"
                    (fresh 30) (opened_world 30) (asked_world (stub shows) 30)
                    "c" opened eq_refl eq_refl)
             two_pictures ["output/c_4_0.png"; "output/c_5_2.png"]
             {| self := self (asked_world (stub shows) 30);
                ticks := 6;
                disk := [("output/c_4_0.png", Decoded [x89; x50]);
                         ("output/c_5_2.png", Decoded [x4e; x47])] |});
      reflexivity.
  - split; [reflexivity|]. split; [reflexivity|]. split; [reflexivity|].
    apply (proj2 (send_message_result_fields (stub (Raise quota)) (Some "c") "hello"
                    (fresh 30) (opened_world 30) (asked_world (stub (Raise quota)) 30)
                    "c" opened eq_refl eq_refl) quota).
    left. reflexivity.
  - split; [reflexivity|]. split; [reflexivity|]. split; [reflexivity|].
    split; [reflexivity|].
    apply (proj2 (send_message_result_fields (picky (Return shows_broken)) (Some "c")
                    "hello" (fresh 30) (opened_world 30)
                    (asked_world (picky (Return shows_broken)) 30)
                    "c" opened eq_refl eq_refl) unreadable).
    right.
    exists shows_broken,
      {| self := self (asked_world (picky (Return shows_broken)) 30);
         ticks := 6;
         disk := [("output/c_20250101120000_0.png", Decoded [x89; x50])] |}.
    split; reflexivity.
Defined.

(** The fields of a result on the success path, on a run with a generated
    conversation id. *)
Example success_result_fields :
  (send_message (stub (says "hi")) None "hello" (fresh 30)).1 =
    Return (success_result (uuid4 (stub (says "hi"))) (Some "hi") []) /\
  dom (success_result (uuid4 (stub (says "hi"))) (Some "hi") []) =
    ({[ "conversation_id"; "text"; "image_paths"; "success" ]} : gset string).
Proof. split; reflexivity. Qed.

(** ** Images *)

(** C5. On a successful call the returned paths stand one for one, in
    order, for the inline payloads of the content parts of the response:
    the path at rank [j] is built from the position in the response of the
    payload at rank [j], and the file written at that path holds that
    payload, decoded. *)
Theorem image_paths_follow_inline_payloads (env : Env) (id : option string)
    (message : string) (w w' : World) (r : Dict) :
  send_message env id message w = (Return r, w') ->
  r !! "success" = Some (VBool true) ->
  exists (k : string) (c : Conversation) (w0 : World)
         (response : GenerateContentResponse)
         (paths : list string) (images : list Image),
    find_or_create env id w = (Return (k, c), w0) /\
    chat_send env (chat c) message = Return response /\
    r !! "image_paths" = Some (of_str_list paths) /\
    length paths = length (inline_payloads response) /\
    length images = length (inline_payloads response) /\
    disk w' = disk w ++ zip paths images /\
    forall (j i : nat) (blob : Blob),
      inline_payloads response !! j = Some (i, blob) ->
      exists image : Image,
        paths !! j =
          Some (image_path env (output_dir (self w)) k
                  (clock env (ticks w0 + 2 + j)%nat) i) /\
        images !! j = Some image /\
        Image_open env (BytesIO (data blob)) = Return image.
Proof.
  intros Hrun Hsuccess.
  destruct (find_or_create env id w) as [[[k c]|e] w0] eqn:Hf; last first.
  { unfold send_message, bind in Hrun. by rewrite Hf in Hrun. }
  destruct (find_or_create_stored _ _ _ _ _ _ Hf) as (_ & Hdisk & _ & Hdir).
  rewrite (send_message_runs _ _ _ _ _ _ _ Hf) in Hrun.
  destruct (exchange_cases env k (chat c) message
              (store k (with_user_message env (max_history (self w)) message
                          (clock env (ticks w0)) (clock env (S (ticks w0))) c)
                 (advance 2 w0)))
    as [(response & paths & w2 & Hsend & Himages & Hx)|(e & w2 & _ & Hx)];
    rewrite Hx in Hrun; simplify_eq; try done.
  apply save_images_returns in Himages as (images & Hdec & Hpaths & ->).
  simpl in *. rewrite Hdir in Hpaths.
  exists k, c, w0, response, paths, images.
  assert (length paths = length (inline_payloads response)) as Hlen.
  { rewrite Hpaths. unfold paths_for. by rewrite length_imap. }
  repeat split; try done.
  - symmetry. by eapply Forall2_length.
  - by rewrite Hdisk.
  - intros j i blob Hj.
    destruct (Forall2_lookup_l _ _ _ _ _ Hdec Hj) as (image & Himage & Hopen).
    exists image. split; [|done].
    rewrite Hpaths. unfold paths_for. rewrite list_lookup_imap, Hj. simpl.
    do 3 f_equal. lia.
Qed.

Lemma image_paths_follow_inline_payloads_witness :
  send_message (stub shows) (Some "c") "draw" (fresh 30) =
    (Return (success_result "c" (Some "two pictures")
               ["output/c_4_0.png"; "output/c_5_2.png"]), pictured) /\
  success_result "c" (Some "two pictures") ["output/c_4_0.png"; "output/c_5_2.png"]
    !! "success" = Some (VBool true) /\
  exists (k : string) (c : Conversation) (w0 : World)
         (response : GenerateContentResponse)
         (paths : list string) (images : list Image),
    find_or_create (stub shows) (Some "c") (fresh 30) = (Return (k, c), w0) /\
    chat_send (stub shows) (chat c) "draw" = Return response /\
    success_result "c" (Some "two pictures") ["output/c_4_0.png"; "output/c_5_2.png"]
      !! "image_paths" = Some (of_str_list paths) /\
    length paths = length (inline_payloads response) /\
    length images = length (inline_payloads response) /\
    disk pictured = disk (fresh 30) ++ zip paths images /\
    forall (j i : nat) (blob : Blob),
      inline_payloads response !! j = Some (i, blob) ->
      exists image : Image,
        paths !! j =
          Some (image_path (stub shows) (output_dir (self (fresh 30))) k
                  (clock (stub shows) (ticks w0 + 2 + j)%nat) i) /\
        images !! j = Some image /\
        Image_open (stub shows) (BytesIO (data blob)) = Return image.
Proof.
  split; [reflexivity|]. split; [reflexivity|].
  apply (image_paths_follow_inline_payloads (stub shows) (Some "c") "draw"
           (fresh 30) pictured); reflexivity.
Defined.

(** The two pictures of the sample reply stand at positions 0 and 2, and
    both files are written, the first one first. *)
Example pictured_files :
  disk pictured =
    [("output/c_4_0.png", Decoded [x89; x50]);
     ("output/c_5_2.png", Decoded [x4e; x47])].
Proof. vm_compute. reflexivity. Qed.

(** ** The store *)

(** C7 (amended). On an existing id, when the new chat session opens,
    [reset_conversation] returns true, leaves the id in the store with an
    empty history and the new chat handle, touches no other entry, and ends
    in the world that deleting the id and creating it again would give. On
    an existing id whose new chat session fails to open it raises that
    exception and changes nothing: the history and the chat handle stay.
    On an id that is not in the store it returns false and changes
    nothing. *)
Theorem reset_conversation_spec (env : Env) (k : string) (w : World) :
  (forall (c : Conversation) (ch : Chat),
     conversations (self w) !! k = Some c ->
     chats_create env (model (self w)) = Return ch ->
     exists w' : World,
       reset_conversation env k w = (Return true, w') /\
       history_of k w' = Some [] /\
       chat <$> conversations (self w') !! k = Some ch /\
       dom (conversations (self w')) = dom (conversations (self w)) /\
       (forall k', k' <> k ->
          conversations (self w') !! k' = conversations (self w) !! k') /\
       w' = (create_conversation env (Some k) (delete_conversation k w).2).2) /\
  (forall (c : Conversation) (e : Exception),
     conversations (self w) !! k = Some c ->
     chats_create env (model (self w)) = Raise e ->
     reset_conversation env k w = (Raise e, w)) /\
  (conversations (self w) !! k = None ->
   reset_conversation env k w = (Return false, w)).
Proof.
  split; [|split].
  - intros c ch Hk Hch. unfold reset_conversation, bind, gets.
    rewrite (contains_lookup _ _ _ Hk). simpl.
    rewrite (create_conversation_returns _ _ _ _ Hch). simpl.
    eexists. split; [done|].
    unfold history_of, store. simpl. rewrite lookup_insert_eq. simpl.
    repeat split; try done.
    + apply dom_insert_lookup_L. by exists c.
    + intros k' Hne. by rewrite lookup_insert_ne.
    + unfold delete_conversation, bind, gets, modify.
      rewrite (contains_lookup _ _ _ Hk). simpl.
      rewrite (create_conversation_returns env (Some k)
                 (set_conversations (delete k) w) ch Hch). simpl.
      unfold store, set_conversations, advance. simpl.
      by rewrite insert_delete_eq.
  - intros c e Hk Hch. unfold reset_conversation, bind, gets.
    rewrite (contains_lookup _ _ _ Hk). simpl.
    by rewrite (create_conversation_raises _ _ _ _ Hch).
  - intros Hk. unfold reset_conversation, bind, gets.
    by rewrite (contains_absent _ _ Hk).
Qed.

Lemma reset_conversation_spec_witness :
  (conversations (self (asked_world (stub (says "hi")) 30)) !! "c" =
     Some (with_user_message (stub (says "hi")) 30 "hello" 2 3 opened) /\
   chat (with_user_message (stub (says "hi")) 30 "hello" 2 3 opened) = 0%nat /\
   chats_create (reopened (says "hi"))
     (model (self (asked_world (stub (says "hi")) 30))) = Return 1%nat /\
   exists w' : World,
     reset_conversation (reopened (says "hi")) "c" (asked_world (stub (says "hi")) 30) =
       (Return true, w') /\
     history_of "c" w' = Some [] /\
     chat <$> conversations (self w') !! "c" = Some 1%nat /\
     dom (conversations (self w')) =
       dom (conversations (self (asked_world (stub (says "hi")) 30))) /\
     (forall k', k' <> "c" ->
        conversations (self w') !! k' =
        conversations (self (asked_world (stub (says "hi")) 30)) !! k') /\
     w' = (create_conversation (reopened (says "hi")) (Some "c")
             (delete_conversation "c" (asked_world (stub (says "hi")) 30)).2).2) /\
  (conversations (self (asked_world (stub (says "hi")) 30)) !! "c" =
     Some (with_user_message (stub (says "hi")) 30 "hello" 2 3 opened) /\
   chats_create (offline refused)
     (model (self (asked_world (stub (says "hi")) 30))) = Raise refused /\
   reset_conversation (offline refused) "c" (asked_world (stub (says "hi")) 30) =
     (Raise refused, asked_world (stub (says "hi")) 30)) /\
  (conversations (self (fresh 30)) !! "c" = None /\
   reset_conversation (stub (says "hi")) "c" (fresh 30) = (Return false, fresh 30)).
Proof.
  split; [|split].
  - split; [reflexivity|]. split; [reflexivity|]. split; [reflexivity|].
    apply (proj1 (reset_conversation_spec (reopened (says "hi")) "c"
                    (asked_world (stub (says "hi")) 30))
             (with_user_message (stub (says "hi")) 30 "hello" 2 3 opened) 1%nat);
      reflexivity.
  - split; [reflexivity|]. split; [reflexivity|].
    apply (proj1 (proj2 (reset_conversation_spec (offline refused) "c"
                           (asked_world (stub (says "hi")) 30)))
             (with_user_message (stub (says "hi")) 30 "hello" 2 3 opened) refused);
      reflexivity.
  - split; [reflexivity|].
    apply (proj2 (proj2 (reset_conversation_spec (stub (says "hi")) "c" (fresh 30))));
      reflexivity.
Defined.

(** C7 as stated fails: on an existing id whose new chat session cannot be
    opened, the call returns nothing, and the history and the chat handle
    are the ones from before the call. *)
Lemma reset_fails_when_session_does_not_open :
  contains (Some "c") (answered_world (stub (says "hi")) 30) = true /\
  turns_of "c" (answered_world (stub (says "hi")) 30) =
    Some [(Some (VStr "user"), Some (VStr "hello"));
          (Some (VStr "assistant"), Some (VStr "hi"))] /\
  (reset_conversation (offline refused) "c" (answered_world (stub (says "hi")) 30)).1 =
    Raise refused /\
  (reset_conversation (offline refused) "c" (answered_world (stub (says "hi")) 30)).1 <>
    Return true /\
  turns_of "c"
    (reset_conversation (offline refused) "c" (answered_world (stub (says "hi")) 30)).2 =
    Some [(Some (VStr "user"), Some (VStr "hello"));
          (Some (VStr "assistant"), Some (VStr "hi"))] /\
  history_of "c"
    (reset_conversation (offline refused) "c" (answered_world (stub (says "hi")) 30)).2 <>
    Some [].
Proof.
  split; [reflexivity|].
  split; [vm_compute; reflexivity|].
  split; [reflexivity|].
  split; [discriminate|].
  split; [vm_compute; reflexivity|].
  intros Heq. apply (f_equal (fmap length)) in Heq.
  vm_compute in Heq. discriminate Heq.
Qed.

(** C8. For an id that is not in the store, be it that it was never
    created (as on a new client) or that it was deleted,
    [get_conversation_history] returns the empty list, raises nothing and
    leaves the world as it was. *)
Theorem get_conversation_history_unknown (k : string) :
  (forall w : World,
     conversations (self w) !! k = None ->
     get_conversation_history k w = (Return [], w)) /\
  (forall (key mdl : string) (limit : Z) (dir : string),
     get_conversation_history k (init key mdl limit dir) =
       (Return [], init key mdl limit dir)) /\
  (forall w : World,
     get_conversation_history k (delete_conversation k w).2 =
       (Return [], (delete_conversation k w).2)).
Proof.
  assert (forall w : World,
            conversations (self w) !! k = None ->
            get_conversation_history k w = (Return [], w)) as Habsent.
  { intros w Hk. unfold get_conversation_history, bind, gets.
    by rewrite (contains_absent _ _ Hk). }
  split; [exact Habsent|]. split.
  - intros. apply Habsent. simpl. apply lookup_empty.
  - intros w. apply Habsent.
    unfold delete_conversation, bind, gets, modify.
    destruct (contains (Some k) w) eqn:Hc; simpl.
    + apply lookup_delete_eq.
    + unfold contains in Hc. apply bool_decide_eq_false in Hc.
      by apply eq_None_not_Some.
Qed.

Lemma get_conversation_history_unknown_witness :
  conversations (self (opened_world 30)) !! "never" = None /\
  get_conversation_history "never" (opened_world 30) = (Return [], opened_world 30).
Proof.
  split; [reflexivity|].
  apply (proj1 (get_conversation_history_unknown "never") (opened_world 30)).
  reflexivity.
Defined.

(** * Further properties of the client *)

(** ** What a call does to the store *)

(** The client object with another store. *)
Lemma self_set_conversations (f : gmap string Conversation -> gmap string Conversation)
    (w : World) :
  api_key (self (set_conversations f w)) = api_key (self w) /\
  model (self (set_conversations f w)) = model (self w) /\
  max_history (self (set_conversations f w)) = max_history (self w) /\
  output_dir (self (set_conversations f w)) = output_dir (self w).
Proof. done. Qed.

Lemma find_or_create_store (env : Env) (id : option string) (w w0 : World)
    (k : string) (c : Conversation) :
  find_or_create env id w = (Return (k, c), w0) ->
  settings w0 = settings w /\
  (conversations (self w0) = conversations (self w) \/
   conversations (self w0) = <[k:=c]> (conversations (self w)) /\ history c = []) /\
  conversations (self w0) !! k = Some c.
Proof.
  intros Hf. destruct (contains id w) eqn:Hid.
  - destruct id as [k'|]; [|done].
    apply contains_Some in Hid as [c' Hc'].
    rewrite (find_existing _ _ _ _ Hc') in Hf. simplify_eq. auto.
  - destruct (chats_create env (model (self w))) as [ch|e] eqn:Hch.
    + rewrite (find_created _ _ _ _ Hid Hch) in Hf. simplify_eq.
      split; [done|]. split; [by right|].
      unfold store. simpl. by rewrite lookup_insert_eq.
    + by rewrite (find_create_raises _ _ _ _ Hid Hch) in Hf.
Qed.

Lemma find_or_create_raises_unchanged (env : Env) (id : option string)
    (w w' : World) (e : Exception) :
  find_or_create env id w = (Raise e, w') -> w' = w.
Proof.
  intros Hf. destruct (contains id w) eqn:Hid.
  - destruct id as [k'|]; [|done].
    apply contains_Some in Hid as [c' Hc'].
    by rewrite (find_existing _ _ _ _ Hc') in Hf.
  - destruct (chats_create env (model (self w))) as [ch|e'] eqn:Hch.
    + by rewrite (find_created _ _ _ _ Hid Hch) in Hf.
    + rewrite (find_create_raises _ _ _ _ Hid Hch) in Hf. by simplify_eq.
Qed.

Lemma send_message_store (env : Env) (id : option string) (message : string)
    (w w0 : World) (k : string) (c : Conversation) :
  find_or_create env id w = (Return (k, c), w0) ->
  exists (r last : Dict) (w' : World),
    send_message env id message w = (Return r, w') /\
    closes env k r last /\
    settings w' = settings w /\
    conversations (self w') =
      <[k := exchanged env (max_history (self w)) message (ticks w0) c last]>
        (conversations (self w)).
Proof.
  intros Hf. destruct (find_or_create_store _ _ _ _ _ _ Hf) as (Hset & Hstore & Hk).
  rewrite (send_message_runs _ _ _ _ _ _ _ Hf).
  set (c1 := with_user_message _ _ _ _ _ _).
  set (w1 := store k c1 _).
  assert (forall (w2 : World) (m : Dict), self w2 = self w1 ->
            settings (appended k m (advance 1 w2)) = settings w /\
            conversations (self (appended k m (advance 1 w2))) =
              <[k := exchanged env (max_history (self w)) message (ticks w0) c m]>
                (conversations (self w))) as Happ.
  { intros w2 m Hself. split.
    - unfold settings in *. simpl. rewrite Hself. exact Hset.
    - unfold appended. simpl. rewrite Hself. unfold w1, store. simpl.
      rewrite alter_insert_eq. unfold exchanged, c1, with_user_message. simpl.
      destruct Hstore as [->|[-> _]]; [done|]. by rewrite insert_insert_eq. }
  destruct (exchange_cases env k (chat c) message w1)
    as [(response & paths & w2 & _ & Himages & ->)|(e & w2 & Hcase & ->)].
  - apply save_images_frame in Himages as [Hself _].
    destruct (Happ w2 (assistant_message env (text response) paths (clock env (ticks w2)))
                Hself) as [? ?].
    eexists _, _, _. split; [done|]. split; [|done]. left. by eexists _, _, _.
  - assert (self w2 = self w1) as Hself.
    { destruct Hcase as [[_ ->]|(response & _ & Himages)]; [done|].
      by apply save_images_frame in Himages as [-> _]. }
    destruct (Happ w2 (error_message env e (clock env (ticks w2))) Hself) as [? ?].
    eexists _, _, _. split; [done|]. split; [|done]. right. by eexists _, _.
Qed.

(** A call that returns found or created its conversation. *)
Lemma send_message_found (env : Env) (id : option string) (message : string)
    (w w' : World) (r : Dict) :
  send_message env id message w = (Return r, w') ->
  exists k c w0, find_or_create env id w = (Return (k, c), w0).
Proof.
  intros Hrun. destruct (find_or_create env id w) as [[[k c]|e'] w0] eqn:Hf.
  - by exists k, c, w0.
  - unfold send_message, bind in Hrun. by rewrite Hf in Hrun.
Qed.

Lemma send_message_raises_unchanged (env : Env) (id : option string) (message : string)
    (w w' : World) (e : Exception) :
  send_message env id message w = (Raise e, w') -> w' = w.
Proof.
  intros Hrun. destruct (find_or_create env id w) as [[[k c]|e'] w0] eqn:Hf.
  - destruct (send_message_store env id message w w0 k c Hf) as (r & last & w'' & Hs & _).
    rewrite Hs in Hrun. done.
  - unfold send_message, bind in Hrun. rewrite Hf in Hrun. simplify_eq.
    by eapply find_or_create_raises_unchanged.
Qed.

(** ** One call of [send_message] *)

(** X1. A call of [send_message] that returns touches one conversation
    only, the one whose id is in the result: no other entry of the store
    changes, no key disappears, and the settings of the client stay. *)
Theorem send_message_touches_one_conversation (env : Env) (id : option string)
    (message : string) (w w' : World) (r : Dict) :
  send_message env id message w = (Return r, w') ->
  exists k : string,
    r !! "conversation_id" = Some (VStr k) /\
    settings w' = settings w /\
    dom (conversations (self w')) = {[ k ]} ∪ dom (conversations (self w)) /\
    forall k' : string, k' <> k ->
      conversations (self w') !! k' = conversations (self w) !! k'.
Proof.
  intros Hrun. destruct (send_message_found _ _ _ _ _ _ Hrun) as (k & c & w0 & Hf).
  destruct (send_message_store env id message w w0 k c Hf)
    as (r' & last & w'' & Hs & Hcl & Hset & Hst).
  rewrite Hs in Hrun. injection Hrun as -> ->. exists k.
  split; [by destruct Hcl as [(? & ? & ? & -> & _)|(? & ? & -> & _)]|].
  split; [done|]. rewrite Hst. split; [apply dom_insert_L|].
  intros k' Hne. by rewrite lookup_insert_ne.
Qed.

Lemma send_message_touches_one_conversation_witness :
  send_message (stub (says "hi")) (Some "c") "hello" (fresh 30) =
    (Return (success_result "c" (Some "hi") []), answered_world (stub (says "hi")) 30) /\
  exists k : string,
    success_result "c" (Some "hi") [] !! "conversation_id" = Some (VStr k) /\
    settings (answered_world (stub (says "hi")) 30) = settings (fresh 30) /\
    dom (conversations (self (answered_world (stub (says "hi")) 30))) =
      {[ k ]} ∪ dom (conversations (self (fresh 30))) /\
    forall k' : string, k' <> k ->
      conversations (self (answered_world (stub (says "hi")) 30)) !! k' =
      conversations (self (fresh 30)) !! k'.
Proof.
  split; [reflexivity|].
  apply (send_message_touches_one_conversation (stub (says "hi")) (Some "c") "hello"
           (fresh 30) (answered_world (stub (says "hi")) 30)
           (success_result "c" (Some "hi") [])); reflexivity.
Defined.

Lemma sliding_window_keeps_last (limit : Z) (h : list Dict) (m : Dict) :
  0 <= limit ->
  exists older : list Dict,
    sliding_window limit (h ++ [m]) = older ++ [m] /\ older `suffix_of` h.
Proof.
  intros Hlimit. destruct (Z.le_gt_cases (Z.of_nat (length (h ++ [m]))) limit) as [Hle|Hgt].
  - exists h. by rewrite sliding_window_small.
  - destruct (decide (limit = 0)) as [->|Hne].
    + exists h. by rewrite sliding_window_zero.
    + rewrite sliding_window_recent by lia.
      rewrite length_app in *. simpl in *.
      exists (drop (length h + 1 - Z.to_nat limit) h). split.
      * rewrite drop_app_le by lia. done.
      * apply suffix_drop.
Qed.

(** X2. With a window that is not negative, a call that returns leaves a
    history that ends with the user turn of this call followed by the turn
    that answers it: the assistant turn carrying the text and the paths of
    the result, or the system turn carrying its error. *)
Theorem send_message_appends_turn_pair (env : Env) (id : option string)
    (message : string) (w w' : World) (r : Dict) :
  0 <= max_history (self w) ->
  send_message env id message w = (Return r, w') ->
  exists (k : string) (older : list Dict) (t : datetime) (last : Dict),
    r !! "conversation_id" = Some (VStr k) /\
    history_of k w' = Some (older ++ [user_message env message t; last]) /\
    closes env k r last.
Proof.
  intros Hmax Hrun. destruct (send_message_found _ _ _ _ _ _ Hrun) as (k & c & w0 & Hf).
  destruct (send_message_store env id message w w0 k c Hf)
    as (r' & last & w'' & Hs & Hcl & Hset & Hst).
  rewrite Hs in Hrun. injection Hrun as -> ->.
  destruct (sliding_window_keeps_last (max_history (self w)) (history c)
              (user_message env message (clock env (ticks w0))) Hmax) as (older & Hw & _).
  exists k, older, (clock env (ticks w0)), last.
  split; [by destruct Hcl as [(? & ? & ? & -> & _)|(? & ? & -> & _)]|].
  split; [|done]. unfold history_of. rewrite Hst, lookup_insert_eq. simpl.
  rewrite Hw. by rewrite <-app_assoc.
Qed.

Lemma send_message_appends_turn_pair_witness :
  0 <= max_history (self (fresh 30)) /\
  send_message (stub (says "hi")) (Some "c") "hello" (fresh 30) =
    (Return (success_result "c" (Some "hi") []), answered_world (stub (says "hi")) 30) /\
  exists (k : string) (older : list Dict) (t : datetime) (last : Dict),
    success_result "c" (Some "hi") [] !! "conversation_id" = Some (VStr k) /\
    history_of k (answered_world (stub (says "hi")) 30) =
      Some (older ++ [user_message (stub (says "hi")) "hello" t; last]) /\
    closes (stub (says "hi")) k (success_result "c" (Some "hi") []) last.
Proof.
  split; [simpl; lia|]. split; [reflexivity|].
  apply (send_message_appends_turn_pair (stub (says "hi")) (Some "c") "hello"
           (fresh 30) (answered_world (stub (says "hi")) 30));
    [simpl; lia|reflexivity].
Defined.



(** X4. With a negative [max_history] every call drops the [-max_history]
    oldest entries of the history extended by the user turn, the user turn
    itself on a short history. *)
Theorem negative_window_drops_oldest (env : Env) (id : option string)
    (message : string) (w w0 : World) (k : string) (c : Conversation) :
  max_history (self w) < 0 ->
  find_or_create env id w = (Return (k, c), w0) ->
  exists last : Dict,
    history_of k (send_message env id message w).2 =
      Some (drop (Z.to_nat (- max_history (self w)))
              (history c ++ [user_message env message (clock env (ticks w0))])
            ++ [last]).
Proof.
  intros Hmax Hf.
  destruct (send_message_store env id message w w0 k c Hf)
    as (r' & last & w'' & Hs & Hcl & Hset & Hst).
  rewrite Hs. simpl. exists last.
  unfold history_of. rewrite Hst, lookup_insert_eq. simpl. do 2 f_equal.
  unfold sliding_window, slice_from, slice_start.
  destruct (Z.ltb_spec (max_history (self w)) (Z.of_nat (length
    (history c ++ [user_message env message (clock env (ticks w0))])))); [|lia].
  destruct (Z.ltb_spec (- max_history (self w)) 0); [lia|].
  destruct (Nat.min_spec (Z.to_nat (- max_history (self w)))
              (length (history c ++ [user_message env message (clock env (ticks w0))])))
    as [[_ ->]|[Hge ->]]; [done|].
  rewrite drop_all. symmetry. apply drop_ge. lia.
Qed.

Lemma negative_window_drops_oldest_witness :
  max_history (self (fresh (-1))) < 0 /\
  find_or_create (stub (says "hi")) (Some "c") (fresh (-1)) =
    (Return ("c", opened), opened_world (-1)) /\
  exists last : Dict,
    history_of "c" (send_message (stub (says "hi")) (Some "c") "hello" (fresh (-1))).2 =
      Some (drop (Z.to_nat (- max_history (self (fresh (-1)))))
              (history opened ++
               [user_message (stub (says "hi")) "hello"
                  (clock (stub (says "hi")) (ticks (opened_world (-1))))])
            ++ [last]).
Proof.
  split; [simpl; lia|]. split; [reflexivity|].
  apply (negative_window_drops_oldest (stub (says "hi")) (Some "c") "hello"
           (fresh (-1)) (opened_world (-1)) "c" opened); [simpl; lia|reflexivity].
Defined.

(** With a window of -1 the user turn of the first exchange is lost. *)
Example negative_window_loses_user_turn :
  turns_of "c" (send_message (stub (says "hi")) (Some "c") "hello" (fresh (-1))).2 =
    Some [(Some (VStr "assistant"), Some (VStr "hi"))].
Proof. vm_compute. reflexivity. Qed.

(** ** Invariants of the store under any sequence of calls *)

Lemma get_conversation_history_world (k : string) (w : World) :
  (get_conversation_history k w).2 = w.
Proof.
  unfold get_conversation_history, bind, gets, get_item.
  destruct (contains (Some k) w) eqn:Hc; simpl; [|done].
  apply contains_Some in Hc as [c Hc]. by rewrite Hc.
Qed.

Section Invariant.
Variable P : list Dict -> Prop.
Variable limit : Z.
Hypothesis P_nil : P [].
Hypothesis P_exchange :
  forall (h : list Dict) (env : Env) (message : string) (t : datetime)
         (k : string) (r last : Dict),
    P h -> closes env k r last ->
    P (sliding_window limit (h ++ [user_message env message t]) ++ [last]).

Lemma create_conversation_keeps (env : Env) (id : option string) (w : World) :
  histories P w ->
  histories P (create_conversation env id w).2 /\
  settings (create_conversation env id w).2 = settings w.
Proof.
  intros Hinv. destruct (chats_create env (model (self w))) as [ch|e] eqn:Hch.
  - rewrite (create_conversation_returns _ _ _ _ Hch). simpl. split; [|done].
    intros k c. unfold store. simpl. rewrite lookup_insert.
    case_decide; [|by apply Hinv]. intros. by simplify_eq.
  - by rewrite (create_conversation_raises _ _ _ _ Hch).
Qed.

Lemma send_message_keeps (env : Env) (id : option string) (message : string)
    (w : World) :
  max_history (self w) = limit ->
  histories P w ->
  histories P (send_message env id message w).2 /\
  settings (send_message env id message w).2 = settings w.
Proof.
  intros Hlimit Hinv.
  destruct (send_message env id message w) as [[r|e] w'] eqn:Hrun; simpl.
  - destruct (send_message_found _ _ _ _ _ _ Hrun) as (k & c & w0 & Hf).
    destruct (send_message_store env id message w w0 k c Hf)
      as (r' & last & w'' & Hs & Hcl & Hset & Hst).
    rewrite Hs in Hrun. injection Hrun as -> ->. split; [|done].
    intros k' c'. rewrite Hst, lookup_insert. case_decide; [|by apply Hinv].
    intros. simplify_eq. simpl. eapply P_exchange; [|exact Hcl].
    destruct (find_or_create_store _ _ _ _ _ _ Hf) as (_ & [Hsame|[_ ->]] & Hk); [|done].
    rewrite Hsame in Hk. by eapply Hinv.
  - by rewrite (send_message_raises_unchanged _ _ _ _ _ _ Hrun).
Qed.

Lemma after_keeps (c : call) (w : World) :
  max_history (self w) = limit ->
  histories P w ->
  histories P (after c w) /\ settings (after c w) = settings w.
Proof.
  intros Hlimit Hinv. destruct c as [env id|env id message|env k|k|k]; simpl.
  - by apply create_conversation_keeps.
  - by apply send_message_keeps.
  - unfold reset_conversation, bind, gets.
    destruct (contains (Some k) w); simpl; [|done].
    pose proof (create_conversation_keeps env (Some k) w Hinv) as Hc.
    by destruct (create_conversation env (Some k) w) as [[?|?] ?].
  - unfold delete_conversation, bind, gets, modify.
    destruct (contains (Some k) w); simpl; [|done]. split; [|done].
    intros k' c'. simpl. rewrite lookup_delete_Some. intros [_ Hk']. by eapply Hinv.
  - by rewrite get_conversation_history_world.
Qed.

Lemma after_all_keeps (cs : list call) :
  forall w : World,
    max_history (self w) = limit ->
    histories P w ->
    histories P (after_all cs w) /\ settings (after_all cs w) = settings w.
Proof.
  induction cs as [|c cs IH]; intros w Hlimit Hinv; [done|]. simpl.
  destruct (after_keeps c w Hlimit Hinv) as [Hinv' Hset].
  destruct (IH (after c w)) as [? ?]; [|done|].
  - unfold settings in Hset. by simplify_eq.
  - split; [done|]. congruence.
Qed.
End Invariant.

(** X6. With a window of at least one entry, no sequence of calls (create,
    send, reset, delete, read) brings a history beyond [max_history + 1]
    entries, nor changes the settings of the client. *)
Theorem histories_stay_within_window_plus_one (cs : list call) (w : World) :
  1 <= max_history (self w) ->
  histories (fun h => Z.of_nat (length h) <= max_history (self w) + 1) w ->
  histories (fun h => Z.of_nat (length h) <= max_history (self w) + 1) (after_all cs w) /\
  settings (after_all cs w) = settings w.
Proof.
  intros Hmax Hinv.
  apply (after_all_keeps _ (max_history (self w))); [simpl; lia| |done|done].
  intros h env message t k r last _ _. rewrite length_app. simpl.
  pose proof (sliding_window_length (max_history (self w))
                (h ++ [user_message env message t]) Hmax). lia.
Qed.

Lemma histories_stay_within_window_plus_one_witness :
  1 <= max_history (self (fresh 2)) /\
  histories (fun h => Z.of_nat (length h) <= max_history (self (fresh 2)) + 1) (fresh 2) /\
  histories (fun h => Z.of_nat (length h) <= max_history (self (fresh 2)) + 1)
    (after_all [Send (stub (says "a1")) (Some "c") "u1"; Delete "d";
                Send (stub (says "a2")) (Some "c") "u2"] (fresh 2)) /\
  settings (after_all [Send (stub (says "a1")) (Some "c") "u1"; Delete "d";
                       Send (stub (says "a2")) (Some "c") "u2"] (fresh 2)) =
    settings (fresh 2).
Proof.
  split; [simpl; lia|]. split; [intros k c Hk; simpl in Hk; done|].
  apply (histories_stay_within_window_plus_one
           [Send (stub (says "a1")) (Some "c") "u1"; Delete "d";
            Send (stub (says "a2")) (Some "c") "u2"] (fresh 2));
    [simpl; lia|intros k c Hk; simpl in Hk; done].
Defined.

Lemma client_turns_exchange (limit : Z) (h : list Dict) (env : Env)
    (message : string) (t : datetime) (k : string) (r last : Dict) :
  Forall client_turn h -> closes env k r last ->
  Forall client_turn (sliding_window limit (h ++ [user_message env message t]) ++ [last]).
Proof.
  intros Hh Hcl. apply Forall_app. split.
  - destruct (sliding_window_suffix limit (h ++ [user_message env message t]))
      as [dropped Hsplit].
    assert (Forall client_turn (h ++ [user_message env message t])) as Hall.
    { apply Forall_app. split; [done|]. apply Forall_singleton. left. by eexists _, _, _. }
    rewrite Hsplit in Hall. by apply Forall_app in Hall as [_ ?].
  - apply Forall_singleton.
    destruct Hcl as [(? & ? & ? & _ & ->)|(? & ? & _ & ->)].
    + right. left. by eexists _, _, _, _.
    + right. right. by eexists _, _, _.
Qed.

(** X7. Under any sequence of calls every turn of every history is a user,
    an assistant or a system turn as [send_message] builds them. *)
Theorem histories_hold_client_turns (cs : list call) (w : World) :
  histories (Forall client_turn) w ->
  histories (Forall client_turn) (after_all cs w).
Proof.
  intros Hinv.
  apply (after_all_keeps _ (max_history (self w))); [done| |done|done].
  intros h env message t k r last. apply client_turns_exchange.
Qed.

Lemma histories_hold_client_turns_witness :
  histories (Forall client_turn) (fresh 2) /\
  histories (Forall client_turn)
    (after_all [Send (stub (says "a1")) (Some "c") "u1";
                Reset (stub (says "a1")) "c";
                Send (stub (Raise quota)) (Some "c") "u2"] (fresh 2)).
Proof.
  split; [intros k c Hk; simpl in Hk; done|].
  apply (histories_hold_client_turns
           [Send (stub (says "a1")) (Some "c") "u1";
            Reset (stub (says "a1")) "c";
            Send (stub (Raise quota)) (Some "c") "u2"] (fresh 2)).
  intros k c Hk; simpl in Hk; done.
Defined.

(** ** The images of a response *)

Lemma save_images_parts (env : Env) (k : string) (response : GenerateContentResponse)
    (ps : list Part) :
  response_parts response = Some ps ->
  save_images env k response = save_parts env k 0 ps [] /\
  inline_payloads response = enumerate_inline 0 ps.
Proof.
  unfold response_parts, save_images, inline_payloads. intros Hps.
  destruct (candidates response) as [[|candidate ?]|]; simplify_eq; try done.
  destruct (content candidate) as [c|]; simplify_eq; try done.
  by rewrite Hps.
Qed.

Lemma save_images_no_parts (env : Env) (k : string) (response : GenerateContentResponse)
    (w : World) :
  response_parts response = None ->
  save_images env k response w = (Raise (Exc "'NoneType' object is not iterable"), w).
Proof.
  unfold response_parts, save_images. intros Hps.
  destruct (candidates response) as [[|candidate ?]|]; simplify_eq.
  destruct (content candidate) as [c|]; simplify_eq. by rewrite Hps.
Qed.

Lemma written_cons (env : Env) (dir k : string) (t0 : nat) (p : nat * Blob)
    (pl : list (nat * Blob)) (image : Image) (images : list Image) :
  written env (paths_for env dir k t0 (p :: pl)) (image :: images) ->
  save env image (image_path env dir k (clock env t0) p.1) = Return tt /\
  written env (paths_for env dir k (S t0) pl) images.
Proof.
  rewrite paths_for_cons. unfold written. intros Hw.
  by inversion Hw; subst.
Qed.


(** The loop stops at the first payload that does not decode or whose
    file cannot be written; the payloads before it keep their files. *)
Lemma save_parts_fails (env : Env) (k : string) (ps : list Part) :
  forall (i : nat) (acc : list string) (w : World) (pl1 pl2 : list (nat * Blob))
         (p : nat * Blob) (images : list Image) (e : Exception),
    enumerate_inline i ps = pl1 ++ p :: pl2 ->
    makedirs env (output_dir (self w)) = Return tt ->
    Forall2 (decodes env) pl1 images ->
    written env (paths_for env (output_dir (self w)) k (ticks w) pl1) images ->
    (Image_open env (BytesIO (data p.2)) = Raise e \/
     exists image : Image,
       decodes env p image /\
       save env image
         (image_path env (output_dir (self w)) k
            (clock env (ticks w + length pl1)%nat) p.1) = Raise e) ->
    save_parts env k i ps acc w =
      (Raise e,
       {| self := self w;
          ticks := (S (length pl1) + ticks w)%nat;
          disk := disk w ++
            zip (paths_for env (output_dir (self w)) k (ticks w) pl1) images |}).
Proof.
  induction ps as [|part rest IH];
    intros i acc w pl1 pl2 p images e Hsplit Hmk Hdec Hsaved Hfail;
    cbn [save_parts enumerate_inline] in *.
  - by destruct pl1.
  - destruct (inline_data part) as [blob|]; [|by eapply IH].
    unfold bind, now, gets, lift.
    destruct pl1 as [|q pl1]; simpl in Hsplit; simplify_eq.
    + inversion Hdec. simpl. rewrite Hmk. simpl.
      rewrite Nat.add_0_r in Hfail. rewrite app_nil_r.
      destruct Hfail as [Hfail|(image & Hopen & Hfail)].
      * simpl in Hfail. by rewrite Hfail.
      * unfold decodes in Hopen. simpl in Hopen, Hfail. rewrite Hopen. simpl.
        unfold Image_save. simpl. by rewrite Hfail.
    + inversion Hdec as [|q' image pl images' Hopen Hrest]. subst.
      apply written_cons in Hsaved as [Hsave Hsaved].
      rewrite paths_for_cons.
      unfold decodes in Hopen. simpl in Hopen, Hsave.
      simpl. rewrite Hmk. simpl. rewrite Hopen. simpl.
      unfold Image_save. simpl. rewrite Hsave.
      rewrite (IH _ _ _ pl1 pl2 p images' e); [|done|done|done|done|].
      * simpl. rewrite <-!app_assoc. simpl. do 2 f_equal. lia.
      * simpl in *. by rewrite Nat.add_succ_r in Hfail.
Qed.

(** When the output directory cannot be created the loop stops at the
    first payload, before any file is written. *)
Lemma save_parts_makedirs_fails (env : Env) (k : string) (ps : list Part) :
  forall (i : nat) (acc : list string) (w : World) (p : nat * Blob)
         (pl : list (nat * Blob)) (e : Exception),
    enumerate_inline i ps = p :: pl ->
    makedirs env (output_dir (self w)) = Raise e ->
    save_parts env k i ps acc w = (Raise e, advance 1 w).
Proof.
  induction ps as [|part rest IH]; intros i acc w p pl e Hsplit Hmk;
    cbn [save_parts enumerate_inline] in *; [done|].
  destruct (inline_data part) as [blob|]; [|by eapply IH].
  unfold bind, now, gets, lift. simpl. by rewrite Hmk.
Qed.



(** The run of the loop inside [send_message] when it stops with an
    exception after the payloads [pl1]. *)
Lemma send_message_stops (env : Env) (id : option string)
    (message : string) (w w0 : World) (k : string) (c : Conversation)
    (response : GenerateContentResponse) (ps : list Part)
    (pl1 : list (nat * Blob)) (images : list Image) (e : Exception) :
  find_or_create env id w = (Return (k, c), w0) ->
  chat_send env (chat c) message = Return response ->
  response_parts response = Some ps ->
  (forall w1 : World,
     output_dir (self w1) = output_dir (self w) ->
     ticks w1 = (ticks w0 + 2)%nat ->
     save_parts env k 0 ps [] w1 =
       (Raise e,
        {| self := self w1;
           ticks := (S (length pl1) + ticks w1)%nat;
           disk := disk w1 ++
             zip (paths_for env (output_dir (self w1)) k (ticks w1) pl1) images |})) ->
  exists w' : World,
    send_message env id message w = (Return (failure_result k e), w') /\
    disk w' = disk w ++
      zip (paths_for env (output_dir (self w)) k (ticks w0 + 2) pl1) images /\
    history_of k w' =
      Some (sliding_window (max_history (self w))
              (history c ++ [user_message env message (clock env (ticks w0))])
            ++ [error_message env e (clock env (ticks w0 + 3 + length pl1)%nat)]).
Proof.
  intros Hf Hsend Hps Hloop.
  destruct (find_or_create_stored _ _ _ _ _ _ Hf) as (_ & Hdisk & _ & Hdir).
  rewrite (send_message_runs _ _ _ _ _ _ _ Hf).
  set (w1 := store k _ _).
  erewrite (exchange_after_images env k (chat c) message w1); [|done|]; last first.
  { rewrite (proj1 (save_images_parts env k response ps Hps)).
    apply Hloop; [done|simpl; lia]. }
  simpl. rewrite Hdir, Hdisk.
  replace (S (S (ticks w0))) with (ticks w0 + 2)%nat by lia.
  eexists. split; [done|]. split; [done|].
  rewrite history_of_appended. unfold history_of. simpl. rewrite lookup_insert_eq. simpl.
  by replace (S (length pl1 + (ticks w0 + 2)))%nat with (ticks w0 + 3 + length pl1)%nat by lia.
Qed.

(** X9. When the output directory can be created and the payloads before
    some payload decode and are written, but that payload does not decode,
    the call returns a failure with the text of the decoder's exception
    and appends a system turn, no assistant turn; the files of the
    payloads before it stay written. *)
Theorem send_message_decode_failure (env : Env) (id : option string)
    (message : string) (w w0 : World) (k : string) (c : Conversation)
    (response : GenerateContentResponse) (ps : list Part)
    (pl1 pl2 : list (nat * Blob)) (p : nat * Blob) (images : list Image)
    (e : Exception) :
  find_or_create env id w = (Return (k, c), w0) ->
  chat_send env (chat c) message = Return response ->
  response_parts response = Some ps ->
  enumerate_inline 0 ps = pl1 ++ p :: pl2 ->
  makedirs env (output_dir (self w)) = Return tt ->
  Forall2 (decodes env) pl1 images ->
  written env (paths_for env (output_dir (self w)) k (ticks w0 + 2) pl1) images ->
  Image_open env (BytesIO (data p.2)) = Raise e ->
  exists w' : World,
    send_message env id message w = (Return (failure_result k e), w') /\
    disk w' = disk w ++
      zip (paths_for env (output_dir (self w)) k (ticks w0 + 2) pl1) images /\
    history_of k w' =
      Some (sliding_window (max_history (self w))
              (history c ++ [user_message env message (clock env (ticks w0))])
            ++ [error_message env e (clock env (ticks w0 + 3 + length pl1)%nat)]).
Proof.
  intros Hf Hsend Hps Hsplit Hmk Hdec Hsaved Hfail.
  apply (send_message_stops env id message w w0 k c response ps pl1 images e);
    [done..|].
  intros w1 Hdir Hticks.
  apply (save_parts_fails env k ps 0%nat [] w1 pl1 pl2 p images e);
    rewrite ?Hdir, ?Hticks; auto.
Qed.

Lemma send_message_decode_failure_witness :
  find_or_create (picky (Return shows_broken)) (Some "c") (fresh 30) =
    (Return ("c", opened), opened_world 30) /\
  chat_send (picky (Return shows_broken)) (chat opened) "draw" = Return shows_broken /\
  response_parts shows_broken = Some broken_parts /\
  enumerate_inline 0 broken_parts =
    [(0%nat, {| data := Some [x89; x50] |})] ++ (2%nat, {| data := Some [] |}) :: [] /\
  makedirs (picky (Return shows_broken)) (output_dir (self (fresh 30))) = Return tt /\
  Forall2 (decodes (picky (Return shows_broken)))
    [(0%nat, {| data := Some [x89; x50] |})] [Decoded [x89; x50]] /\
  written (picky (Return shows_broken))
    (paths_for (picky (Return shows_broken)) (output_dir (self (fresh 30))) "c"
       (ticks (opened_world 30) + 2) [(0%nat, {| data := Some [x89; x50] |})])
    [Decoded [x89; x50]] /\
  Image_open (picky (Return shows_broken))
    (BytesIO (data (2%nat, {| data := Some [] |}).2)) = Raise unreadable /\
  exists w' : World,
    send_message (picky (Return shows_broken)) (Some "c") "draw" (fresh 30) =
      (Return (failure_result "c" unreadable), w') /\
    disk w' = disk (fresh 30) ++
      zip (paths_for (picky (Return shows_broken)) (output_dir (self (fresh 30))) "c"
             (ticks (opened_world 30) + 2) [(0%nat, {| data := Some [x89; x50] |})])
          [Decoded [x89; x50]] /\
    history_of "c" w' =
      Some (sliding_window (max_history (self (fresh 30)))
              (history opened ++
               [user_message (picky (Return shows_broken)) "draw"
                  (clock (picky (Return shows_broken)) (ticks (opened_world 30)))])
            ++ [error_message (picky (Return shows_broken)) unreadable
                  (clock (picky (Return shows_broken))
                     (ticks (opened_world 30) + 3 +
                      length [(0%nat, {| data := Some [x89; x50] |})])%nat)]).
Proof.
  split; [reflexivity|]. split; [reflexivity|]. split; [reflexivity|].
  split; [reflexivity|]. split; [reflexivity|]. split; [repeat constructor|].
  split; [vm_compute; repeat constructor|]. split; [reflexivity|].
  apply (send_message_decode_failure (picky (Return shows_broken)) (Some "c") "draw"
           (fresh 30) (opened_world 30) "c" opened shows_broken broken_parts
           [(0%nat, {| data := Some [x89; x50] |})] []
           (2%nat, {| data := Some [] |}) [Decoded [x89; x50]] unreadable);
    [reflexivity|reflexivity|reflexivity|reflexivity|reflexivity|repeat constructor
    |vm_compute; repeat constructor|reflexivity].
Defined.

(** The first picture of the broken reply stays on the disk. *)
Example decode_failure_leaves_file :
  disk (send_message (picky (Return shows_broken)) (Some "c") "draw" (fresh 30)).2 =
    [("output/c_20250101120000_0.png", Decoded [x89; x50])].
Proof. vm_compute. reflexivity. Qed.

(** X25. When a payload decodes but [image.save] raises on it, the call
    returns a failure with the text of that exception and appends a system
    turn, no assistant turn; no file is written for that payload nor for
    the ones after it, and the files of the payloads before it stay
    written. *)
Theorem send_message_save_failure (env : Env) (id : option string)
    (message : string) (w w0 : World) (k : string) (c : Conversation)
    (response : GenerateContentResponse) (ps : list Part)
    (pl1 pl2 : list (nat * Blob)) (p : nat * Blob) (images : list Image)
    (image : Image) (e : Exception) :
  find_or_create env id w = (Return (k, c), w0) ->
  chat_send env (chat c) message = Return response ->
  response_parts response = Some ps ->
  enumerate_inline 0 ps = pl1 ++ p :: pl2 ->
  makedirs env (output_dir (self w)) = Return tt ->
  Forall2 (decodes env) pl1 images ->
  written env (paths_for env (output_dir (self w)) k (ticks w0 + 2) pl1) images ->
  decodes env p image ->
  save env image
    (image_path env (output_dir (self w)) k
       (clock env (ticks w0 + 2 + length pl1)%nat) p.1) = Raise e ->
  exists w' : World,
    send_message env id message w = (Return (failure_result k e), w') /\
    disk w' = disk w ++
      zip (paths_for env (output_dir (self w)) k (ticks w0 + 2) pl1) images /\
    history_of k w' =
      Some (sliding_window (max_history (self w))
              (history c ++ [user_message env message (clock env (ticks w0))])
            ++ [error_message env e (clock env (ticks w0 + 3 + length pl1)%nat)]).
Proof.
  intros Hf Hsend Hps Hsplit Hmk Hdec Hsaved Hopen Hfail.
  apply (send_message_stops env id message w w0 k c response ps pl1 images e);
    [done..|].
  intros w1 Hdir Hticks.
  apply (save_parts_fails env k ps 0%nat [] w1 pl1 pl2 p images e);
    rewrite ?Hdir, ?Hticks; eauto.
Qed.

Lemma send_message_save_failure_witness :
  find_or_create (lossy shows) (Some "c") (fresh 30) =
    (Return ("c", opened), opened_world 30) /\
  chat_send (lossy shows) (chat opened) "draw" = Return two_pictures /\
  response_parts two_pictures = Some three_parts /\
  enumerate_inline 0 three_parts =
    [(0%nat, {| data := Some [x89; x50] |})] ++
    (2%nat, {| data := Some [x4e; x47] |}) :: [] /\
  makedirs (lossy shows) (output_dir (self (fresh 30))) = Return tt /\
  Forall2 (decodes (lossy shows))
    [(0%nat, {| data := Some [x89; x50] |})] [Decoded [x89; x50]] /\
  written (lossy shows)
    (paths_for (lossy shows) (output_dir (self (fresh 30))) "c"
       (ticks (opened_world 30) + 2) [(0%nat, {| data := Some [x89; x50] |})])
    [Decoded [x89; x50]] /\
  decodes (lossy shows) (2%nat, {| data := Some [x4e; x47] |}) (Decoded [x4e; x47]) /\
  save (lossy shows) (Decoded [x4e; x47])
    (image_path (lossy shows) (output_dir (self (fresh 30))) "c"
       (clock (lossy shows)
          (ticks (opened_world 30) + 2 +
           length [(0%nat, {| data := Some [x89; x50] |})])%nat)
       (2%nat, {| data := Some [x4e; x47] |}).1) = Raise unwritable /\
  exists w' : World,
    send_message (lossy shows) (Some "c") "draw" (fresh 30) =
      (Return (failure_result "c" unwritable), w') /\
    disk w' = disk (fresh 30) ++
      zip (paths_for (lossy shows) (output_dir (self (fresh 30))) "c"
             (ticks (opened_world 30) + 2) [(0%nat, {| data := Some [x89; x50] |})])
          [Decoded [x89; x50]] /\
    history_of "c" w' =
      Some (sliding_window (max_history (self (fresh 30)))
              (history opened ++
               [user_message (lossy shows) "draw"
                  (clock (lossy shows) (ticks (opened_world 30)))])
            ++ [error_message (lossy shows) unwritable
                  (clock (lossy shows)
                     (ticks (opened_world 30) + 3 +
                      length [(0%nat, {| data := Some [x89; x50] |})])%nat)]).
Proof.
  split; [reflexivity|]. split; [reflexivity|]. split; [reflexivity|].
  split; [reflexivity|]. split; [reflexivity|]. split; [repeat constructor|].
  split; [vm_compute; repeat constructor|]. split; [reflexivity|].
  split; [reflexivity|].
  apply (send_message_save_failure (lossy shows) (Some "c") "draw"
           (fresh 30) (opened_world 30) "c" opened two_pictures three_parts
           [(0%nat, {| data := Some [x89; x50] |})] []
           (2%nat, {| data := Some [x4e; x47] |}) [Decoded [x89; x50]]
           (Decoded [x4e; x47]) unwritable);
    [reflexivity|reflexivity|reflexivity|reflexivity|reflexivity|repeat constructor
    |vm_compute; repeat constructor|reflexivity|reflexivity].
Defined.

(** The refused picture leaves no file; the one before it stays. *)
Example save_failure_leaves_first_file :
  disk (send_message (lossy shows) (Some "c") "draw" (fresh 30)).2 =
    [("output/c_4_0.png", Decoded [x89; x50])] /\
  turns_of "c" (send_message (lossy shows) (Some "c") "draw" (fresh 30)).2 =
    Some [(Some (VStr "user"), Some (VStr "draw"));
          (Some (VStr "system"), Some (VStr "Error: cannot write mode F as PNG"))].
Proof. split; vm_compute; reflexivity. Qed.

(** X26. When the response holds an inline payload and the output
    directory cannot be created, the call returns a failure with the text
    of that exception and appends a system turn; nothing is decoded and no
    file is written. *)
Theorem send_message_makedirs_failure (env : Env) (id : option string)
    (message : string) (w w0 : World) (k : string) (c : Conversation)
    (response : GenerateContentResponse) (ps : list Part)
    (p : nat * Blob) (pl : list (nat * Blob)) (e : Exception) :
  find_or_create env id w = (Return (k, c), w0) ->
  chat_send env (chat c) message = Return response ->
  response_parts response = Some ps ->
  enumerate_inline 0 ps = p :: pl ->
  makedirs env (output_dir (self w)) = Raise e ->
  exists w' : World,
    send_message env id message w = (Return (failure_result k e), w') /\
    disk w' = disk w /\
    history_of k w' =
      Some (sliding_window (max_history (self w))
              (history c ++ [user_message env message (clock env (ticks w0))])
            ++ [error_message env e (clock env (ticks w0 + 3)%nat)]).
Proof.
  intros Hf Hsend Hps Hsplit Hmk.
  destruct (send_message_stops env id message w w0 k c response ps [] [] e)
    as (w' & Hrun & Hdisk & Hhist); [done..| |].
  - intros w1 Hdir Hticks.
    rewrite (save_parts_makedirs_fails env k ps 0%nat [] w1 p pl e);
      [|done|by rewrite Hdir].
    unfold advance. simpl. by rewrite app_nil_r.
  - exists w'. split; [done|]. split.
    + rewrite Hdisk. simpl. by rewrite app_nil_r.
    + rewrite Hhist. simpl. by rewrite Nat.add_0_r.
Qed.

Lemma send_message_makedirs_failure_witness :
  find_or_create (sealed shows) (Some "c") (fresh 30) =
    (Return ("c", opened), opened_world 30) /\
  chat_send (sealed shows) (chat opened) "draw" = Return two_pictures /\
  response_parts two_pictures = Some three_parts /\
  enumerate_inline 0 three_parts =
    (0%nat, {| data := Some [x89; x50] |}) ::
    [(2%nat, {| data := Some [x4e; x47] |})] /\
  makedirs (sealed shows) (output_dir (self (fresh 30))) = Raise denied /\
  exists w' : World,
    send_message (sealed shows) (Some "c") "draw" (fresh 30) =
      (Return (failure_result "c" denied), w') /\
    disk w' = disk (fresh 30) /\
    history_of "c" w' =
      Some (sliding_window (max_history (self (fresh 30)))
              (history opened ++
               [user_message (sealed shows) "draw"
                  (clock (sealed shows) (ticks (opened_world 30)))])
            ++ [error_message (sealed shows) denied
                  (clock (sealed shows) (ticks (opened_world 30) + 3)%nat)]).
Proof.
  split; [reflexivity|]. split; [reflexivity|]. split; [reflexivity|].
  split; [reflexivity|]. split; [reflexivity|].
  apply (send_message_makedirs_failure (sealed shows) (Some "c") "draw"
           (fresh 30) (opened_world 30) "c" opened two_pictures three_parts
           (0%nat, {| data := Some [x89; x50] |})
           [(2%nat, {| data := Some [x4e; x47] |})] denied);
    reflexivity.
Defined.

(** X10. A response whose first candidate has a content without a list of
    parts is reported as a failure ('NoneType' object is not iterable);
    nothing is written. *)
Theorem send_message_parts_missing (env : Env) (id : option string)
    (message : string) (w w0 : World) (k : string) (c : Conversation)
    (response : GenerateContentResponse) :
  find_or_create env id w = (Return (k, c), w0) ->
  chat_send env (chat c) message = Return response ->
  response_parts response = None ->
  exists w' : World,
    send_message env id message w =
      (Return (failure_result k (Exc "'NoneType' object is not iterable")), w') /\
    disk w' = disk w /\
    history_of k w' =
      Some (sliding_window (max_history (self w))
              (history c ++ [user_message env message (clock env (ticks w0))])
            ++ [error_message env (Exc "'NoneType' object is not iterable")
                  (clock env (ticks w0 + 2)%nat)]).
Proof.
  intros Hf Hsend Hps.
  destruct (find_or_create_stored _ _ _ _ _ _ Hf) as (_ & Hdisk & _ & Hdir).
  rewrite (send_message_runs _ _ _ _ _ _ _ Hf).
  set (w1 := store k _ _).
  erewrite (exchange_after_images env k (chat c) message w1); [|done|]; last first.
  { by apply save_images_no_parts. }
  simpl. eexists. split; [done|]. split; [done|].
  rewrite history_of_appended. unfold history_of. simpl. rewrite lookup_insert_eq. simpl.
  by rewrite (Nat.add_comm (ticks w0) 2).
Qed.

Lemma send_message_parts_missing_witness :
  find_or_create (stub (Return unparted)) (Some "c") (fresh 30) =
    (Return ("c", opened), opened_world 30) /\
  chat_send (stub (Return unparted)) (chat opened) "draw" = Return unparted /\
  response_parts unparted = None /\
  exists w' : World,
    send_message (stub (Return unparted)) (Some "c") "draw" (fresh 30) =
      (Return (failure_result "c" (Exc "'NoneType' object is not iterable")), w') /\
    disk w' = disk (fresh 30) /\
    history_of "c" w' =
      Some (sliding_window (max_history (self (fresh 30)))
              (history opened ++
               [user_message (stub (Return unparted)) "draw"
                  (clock (stub (Return unparted)) (ticks (opened_world 30)))])
            ++ [error_message (stub (Return unparted))
                  (Exc "'NoneType' object is not iterable")
                  (clock (stub (Return unparted)) (ticks (opened_world 30) + 2)%nat)]).
Proof.
  split; [reflexivity|]. split; [reflexivity|]. split; [reflexivity|].
  apply (send_message_parts_missing (stub (Return unparted)) (Some "c") "draw"
           (fresh 30) (opened_world 30) "c" opened unparted); reflexivity.
Defined.

(** ** Paths and file names *)

Lemma append_cons (x : ascii) (a b : string) :
  String x a +:+ b = String x (a +:+ b).
Proof. done. Qed.

Lemma append_assoc (a b c : string) : (a +:+ b) +:+ c = a +:+ b +:+ c.
Proof.
  induction a as [|x a IH]; [done|]. by rewrite !append_cons, IH.
Qed.

Lemma length_append (a b : string) :
  String.length (a +:+ b) = (String.length a + String.length b)%nat.
Proof.
  induction a as [|x a IH]; [done|]. rewrite append_cons. simpl. by rewrite IH.
Qed.

(** Two concatenations with heads of one length agree part by part. *)
Lemma append_inj_length (a a' b b' : string) :
  String.length a = String.length a' ->
  a +:+ b = a' +:+ b' -> a = a' /\ b = b'.
Proof.
  revert a'. induction a as [|x a IH]; intros [|x' a'] Hlen Heq; try done.
  rewrite !append_cons in Heq. simpl in Hlen. simplify_eq.
  destruct (IH a') as [-> ->]; [lia|done|done].
Qed.

Lemma append_inv_tail (a a' b : string) : a +:+ b = a' +:+ b -> a = a'.
Proof.
  intros Heq. apply (append_inj_length a a' b b); [|done].
  apply (f_equal String.length) in Heq. rewrite !length_append in Heq. lia.
Qed.


Lemma starts_with_slash_append (a b : string) :
  starts_with_slash (a +:+ "_" +:+ b) = starts_with_slash a.
Proof. by destruct a. Qed.









(** An id that begins with a slash sends the file out of the output
    directory. *)
Example image_path_absolute_id :
  image_path (stub shows) "output" "/tmp/x" 4 0 = "/tmp/x_4_0.png".
Proof. reflexivity. Qed.



(** Two images of one conversation saved under one path stand at one
    position, when the stamps of the clock all have one width. *)
Lemma image_path_inj (env : Env) (dir k : string) (t t' : datetime) (i i' : nat) :
  String.length (strftime env t) = String.length (strftime env t') ->
  image_path env dir k t i = image_path env dir k t' i' -> i = i'.
Proof.
  intros Hlen Heq.
  assert (image_filename env k t i = image_filename env k t' i') as Hname.
  { unfold image_path, os_path_join in Heq.
    rewrite !starts_with_slash_append in Heq.
    destruct (starts_with_slash k); [done|]. destruct (_ || _).
    - by apply (inj (String.app dir)) in Heq.
    - apply (inj (String.app dir)) in Heq. by apply (inj (String.app "/")) in Heq. }
  unfold image_filename in Hname.
  apply (inj (String.app k)) in Hname. apply (inj (String.app "_")) in Hname.
  apply append_inj_length in Hname as [_ Hname]; [|done].
  apply (inj (String.app "_")) in Hname. apply append_inv_tail in Hname.
  by apply (inj pretty) in Hname.
Qed.

Lemma enumerate_inline_positions (ps : list Part) :
  forall i : nat,
    NoDup (enumerate_inline i ps).*1 /\
    Forall (fun p => (i <= p.1)%nat) (enumerate_inline i ps).
Proof.
  induction ps as [|part rest IH]; intros i; simpl; [split; constructor|].
  destruct (IH (S i)) as [Hnd Hge]. destruct (inline_data part) as [blob|].
  - split.
    + simpl. constructor; [|done]. intros Hin.
      apply list_elem_of_fmap in Hin as (p & Hp & Hin).
      rewrite Forall_forall in Hge. specialize (Hge p Hin). simpl in Hp. lia.
    + constructor; [simpl; lia|]. eapply Forall_impl; [exact Hge|].
      intros p Hp. simpl in Hp. lia.
  - split; [done|]. eapply Forall_impl; [exact Hge|]. intros p Hp. simpl in Hp. lia.
Qed.

Lemma paths_for_NoDup (env : Env) (dir k : string) (pl : list (nat * Blob)) :
  (forall t t', String.length (strftime env t) = String.length (strftime env t')) ->
  forall t0 : nat, NoDup pl.*1 -> NoDup (paths_for env dir k t0 pl).
Proof.
  intros Hwidth. induction pl as [|p pl IH]; intros t0 Hnd.
  - constructor.
  - rewrite paths_for_cons. apply NoDup_cons in Hnd as [Hp Hnd].
    constructor; [|by apply IH]. intros Hin.
    unfold paths_for in Hin. apply elem_of_lookup_imap in Hin as (j & q & Heq & Hq).
    apply image_path_inj in Heq; [|done].
    apply Hp. apply list_elem_of_fmap. exists q. split; [done|].
    by eapply list_elem_of_lookup_2.
Qed.

Lemma of_str_list_inj (l l' : list string) : VStr <$> l = VStr <$> l' -> l = l'.
Proof.
  revert l'. induction l as [|x l IH]; intros [|x' l'] Heq; simplify_eq/=; [done|].
  f_equal. by apply IH.
Qed.

(** X13. When all stamps of the clock have one width, the paths returned
    by a successful call are pairwise distinct: no image of a response
    overwrites another one of the same response. *)
Theorem image_paths_are_distinct (env : Env) (id : option string) (message : string)
    (w w' : World) (k : string) (text_content : option string) (paths : list string) :
  (forall t t', String.length (strftime env t) = String.length (strftime env t')) ->
  send_message env id message w = (Return (success_result k text_content paths), w') ->
  NoDup paths.
Proof.
  intros Hwidth Hrun.
  destruct (send_message_found _ _ _ _ _ _ Hrun) as (k' & c & w0 & Hf).
  rewrite (send_message_runs _ _ _ _ _ _ _ Hf) in Hrun.
  set (w1 := store k' _ _) in Hrun.
  destruct (exchange_cases env k' (chat c) message w1)
    as [(response & paths' & w2 & _ & Himages & Hx)|(e & w2 & _ & Hx)];
    rewrite Hx in Hrun; apply (f_equal fst) in Hrun; simpl in Hrun.
  - assert (paths' = paths) as ->.
    { apply (f_equal (fun o : outcome Dict =>
                        match o with
                        | Return d => d !! "image_paths"
                        | Raise _ => None
                        end)) in Hrun.
      change (Some (of_str_list paths') = Some (of_str_list paths)) in Hrun.
      injection Hrun as Hrun. by apply of_str_list_inj. }
    apply save_images_returns in Himages as (images & _ & -> & _).
    apply paths_for_NoDup; [done|].
    unfold inline_payloads. destruct (candidates response) as [[|cand ?]|]; try constructor.
    destruct (content cand); [|constructor]. apply enumerate_inline_positions.
  - apply (f_equal succeeded) in Hrun. done.
Qed.

Lemma image_paths_are_distinct_witness :
  (forall t t', String.length (strftime (picky shows) t) =
                String.length (strftime (picky shows) t')) /\
  send_message (picky shows) (Some "c") "draw" (fresh 30) =
    (Return (success_result "c" (Some "two pictures")
               ["output/c_20250101120000_0.png"; "output/c_20250101120000_2.png"]),
     (send_message (picky shows) (Some "c") "draw" (fresh 30)).2) /\
  NoDup ["output/c_20250101120000_0.png"; "output/c_20250101120000_2.png"].
Proof.
  split; [intros t t'; reflexivity|]. split; [reflexivity|].
  apply (image_paths_are_distinct (picky shows) (Some "c") "draw" (fresh 30)
           (send_message (picky shows) (Some "c") "draw" (fresh 30)).2
           "c" (Some "two pictures")
           ["output/c_20250101120000_0.png"; "output/c_20250101120000_2.png"]);
    [intros t t'; reflexivity|reflexivity].
Defined.

(** ** The HTTP layer *)

Lemma image_urls_loop_strings (url : string -> string) (paths : list string) :
  image_urls_loop url (VStr <$> paths) = Return (urls_of url paths).
Proof.
  unfold urls_of. induction paths as [|path paths IH]; [done|].
  cbn [fmap list_fmap image_urls_loop truthy basename_of]. rewrite IH.
  rewrite filter_cons. destruct (decide (path = "")) as [->|Hne].
  - done.
  - rewrite bool_decide_eq_false_2 by done. simpl.
    rewrite decide_True by done. done.
Qed.

Lemma urls_of_nonempty (url : string -> string) (paths : list string) :
  Forall (fun path => path <> "") paths ->
  urls_of url paths = (fun path => url (basename path)) <$> paths.
Proof.
  intros Hall. unfold urls_of. f_equal. induction Hall as [|path paths Hne _ IH]; [done|].
  rewrite filter_cons, decide_True by done. by rewrite IH.
Qed.

Lemma convert_message_assistant (base_url : string) (env : Env)
    (text_content : option string) (path : string) (paths : list string)
    (t : datetime) :
  app.convert_message base_url (assistant_message env text_content (path :: paths) t) =
    Return (assistant_view env text_content
              (urls_of (fun filename => base_url +:+ "/images/" +:+ filename)
                 (path :: paths)) t).
Proof.
  unfold app.convert_message.
  change (assistant_message env text_content (path :: paths) t !! "images")
    with (Some (of_str_list (path :: paths))).
  cbn [truthy of_str_list iterate]. simpl bool_decide. cbn [negb].
  change (VStr path :: (VStr <$> paths)) with (VStr <$> (path :: paths)).
  rewrite image_urls_loop_strings. done.
Qed.

(** X16. [convert_paths_to_urls] leaves user turns, system turns and
    assistant turns with no image as they are (the latter keep their empty
    [images]); an assistant turn with images loses [images] and gains
    [image_urls], one URL [base_url/images/<base name>] per non-empty
    path, in order. *)
Theorem convert_message_client_turn (base_url : string) (env : Env) :
  (forall message t,
     app.convert_message base_url (user_message env message t) =
       Return (user_message env message t)) /\
  (forall e t,
     app.convert_message base_url (error_message env e t) =
       Return (error_message env e t)) /\
  (forall text_content t,
     app.convert_message base_url (assistant_message env text_content [] t) =
       Return (assistant_message env text_content [] t)) /\
  (forall text_content path paths t,
     app.convert_message base_url (assistant_message env text_content (path :: paths) t) =
       Return (assistant_view env text_content
                 (urls_of (fun filename => base_url +:+ "/images/" +:+ filename)
                    (path :: paths)) t) /\
     length (urls_of (fun filename => base_url +:+ "/images/" +:+ filename)
               (path :: paths)) =
       length (filter (fun p => p <> "") (path :: paths))).
Proof.
  split; [done|]. split; [done|]. split; [done|].
  intros text_content path paths t. split; [apply convert_message_assistant|].
  unfold urls_of. apply length_fmap.
Qed.

Lemma convert_message_client_turn_returns (base_url : string) (turn : Dict) :
  client_turn turn ->
  exists turn' : Dict,
    app.convert_message base_url turn = Return turn' /\
    turn' !! "role" = turn !! "role" /\
    turn' !! "content" = turn !! "content" /\
    turn' !! "timestamp" = turn !! "timestamp".
Proof.
  intros [(env & message & t & ->)|[(env & text_content & paths & t & ->)|
                                    (env & e & t & ->)]].
  - by eexists.
  - destruct paths as [|path paths]; [by eexists|].
    eexists. split; [apply convert_message_assistant|]. done.
  - by eexists.
Qed.

Lemma convert_paths_to_urls_returns (base_url : string) (history : list Dict) :
  Forall client_turn history ->
  exists updated_history : list Dict,
    app.convert_paths_to_urls base_url history = Return updated_history /\
    Forall2 (fun turn turn' =>
               app.convert_message base_url turn = Return turn' /\
               turn' !! "role" = turn !! "role" /\
               turn' !! "content" = turn !! "content" /\
               turn' !! "timestamp" = turn !! "timestamp")
      history updated_history.
Proof.
  induction 1 as [|turn history Hturn _ (updated & Hrest & Hall)].
  - exists []. split; [done|]. constructor.
  - destruct (convert_message_client_turn_returns base_url turn Hturn)
      as (turn' & Hconv & Hkeys).
    exists (turn' :: updated). cbn [app.convert_paths_to_urls].
    rewrite Hconv, Hrest. split; [done|]. by constructor.
Qed.

(** X17. On a history of turns built by the client [convert_paths_to_urls]
    does not raise and returns one turn per turn, in order, each with the
    role, content and timestamp of its source. *)
Theorem convert_paths_to_urls_client_history (base_url : string) (history : list Dict) :
  Forall client_turn history ->
  exists updated_history : list Dict,
    app.convert_paths_to_urls base_url history = Return updated_history /\
    length updated_history = length history /\
    forall (j : nat) (turn : Dict),
      history !! j = Some turn ->
      exists turn' : Dict,
        updated_history !! j = Some turn' /\
        app.convert_message base_url turn = Return turn' /\
        turn' !! "role" = turn !! "role" /\
        turn' !! "content" = turn !! "content" /\
        turn' !! "timestamp" = turn !! "timestamp".
Proof.
  intros Hturns.
  destruct (convert_paths_to_urls_returns base_url history Hturns)
    as (updated & Hconv & Hall).
  exists updated. split; [done|]. split; [symmetry; by eapply Forall2_length|].
  intros j turn Hj.
  destruct (Forall2_lookup_l _ _ _ _ _ Hall Hj) as (turn' & Hj' & Hkeys).
  by exists turn'.
Qed.

Lemma sample_history_client_turns : Forall client_turn sample_history.
Proof.
  constructor; [left; by eexists _, _, _|].
  constructor; [right; left; by eexists _, _, _, _|]. constructor.
Qed.

Lemma convert_paths_to_urls_client_history_witness :
  Forall client_turn sample_history /\
  exists updated_history : list Dict,
    app.convert_paths_to_urls "http://localhost:8000" sample_history =
      Return updated_history /\
    length updated_history = length sample_history /\
    forall (j : nat) (turn : Dict),
      sample_history !! j = Some turn ->
      exists turn' : Dict,
        updated_history !! j = Some turn' /\
        app.convert_message "http://localhost:8000" turn = Return turn' /\
        turn' !! "role" = turn !! "role" /\
        turn' !! "content" = turn !! "content" /\
        turn' !! "timestamp" = turn !! "timestamp".
Proof.
  split; [exact sample_history_client_turns|].
  apply (convert_paths_to_urls_client_history "http://localhost:8000" sample_history).
  exact sample_history_client_turns.
Defined.

(** The history of the sample exchange, as [GET /conversations/c] shows
    it. *)
Example convert_sample_history :
  app.convert_paths_to_urls "http://localhost:8000" sample_history =
    Return [user_message (stub shows) "draw" 2;
            assistant_view (stub shows) (Some "two pictures")
              ["http://localhost:8000/images/c_4_0.png";
               "http://localhost:8000/images/c_5_2.png"] 6].
Proof. reflexivity. Qed.

Lemma os_path_join_nonempty (a b : string) : b <> "" -> os_path_join a b <> "".
Proof.
  intros Hb. unfold os_path_join. destruct (starts_with_slash b); [done|].
  assert (forall s, s +:+ b <> "") as Happ.
  { intros [|x s]; [done|]. by rewrite append_cons. }
  destruct (_ || _); [apply Happ|]. rewrite <-append_assoc. apply Happ.
Qed.

Lemma image_path_nonempty (env : Env) (dir k : string) (t : datetime) (i : nat) :
  image_path env dir k t i <> "".
Proof.
  unfold image_path. apply os_path_join_nonempty.
  destruct k as [|x k]; [done|]. by rewrite append_cons.
Qed.

Lemma paths_for_nonempty (env : Env) (dir k : string) (t0 : nat)
    (pl : list (nat * Blob)) :
  Forall (fun path => path <> "") (paths_for env dir k t0 pl).
Proof.
  apply Forall_forall. intros path Hin. unfold paths_for in Hin.
  apply elem_of_lookup_imap in Hin as (j & p & -> & _). apply image_path_nonempty.
Qed.

(** The paths of a call that returned a success are the paths of the loop. *)
Lemma send_message_success_paths (env : Env) (id : option string) (message : string)
    (w w' : World) (k : string) (text_content : option string) (paths : list string) :
  send_message env id message w = (Return (success_result k text_content paths), w') ->
  exists dir k' t0 pl, paths = paths_for env dir k' t0 pl /\ NoDup pl.*1.
Proof.
  intros Hrun.
  destruct (send_message_found _ _ _ _ _ _ Hrun) as (k' & c & w0 & Hf).
  rewrite (send_message_runs _ _ _ _ _ _ _ Hf) in Hrun.
  set (w1 := store k' _ _) in Hrun.
  destruct (exchange_cases env k' (chat c) message w1)
    as [(response & paths' & w2 & _ & Himages & Hx)|(e & w2 & _ & Hx)];
    rewrite Hx in Hrun; apply (f_equal fst) in Hrun; simpl in Hrun.
  - assert (paths' = paths) as ->.
    { apply (f_equal (fun o : outcome Dict =>
                        match o with
                        | Return d => d !! "image_paths"
                        | Raise _ => None
                        end)) in Hrun.
      change (Some (of_str_list paths') = Some (of_str_list paths)) in Hrun.
      injection Hrun as Hrun. by apply of_str_list_inj. }
    apply save_images_returns in Himages as (images & _ & -> & _).
    eexists _, _, _, _. split; [done|].
    unfold inline_payloads. destruct (candidates response) as [[|cand ?]|]; try constructor.
    destruct (content cand); [|constructor]. apply enumerate_inline_positions.
  - apply (f_equal succeeded) in Hrun. done.
Qed.

(** X18. When [send_message] succeeds, [POST /chat] replies with the same
    id and text, [success] true, no error, and one URL [/images/<base
    name>] per returned path, in order. *)
Theorem chat_success (env : Env) (id : option string) (message : string)
    (w w' : World) (k : string) (text_content : option string) (paths : list string) :
  send_message env id message w = (Return (success_result k text_content paths), w') ->
  app.chat env id message w =
    (Return (chat_body k (of_optional_str text_content)
               ((fun path => "/images/" +:+ basename path) <$> paths) true VNone),
     w').
Proof.
  intros Hrun.
  destruct (send_message_success_paths _ _ _ _ _ _ _ _ Hrun) as (dir & k' & t0 & pl & Hp & _).
  assert (Forall (fun path => path <> "") paths) as Hne.
  { rewrite Hp. apply paths_for_nonempty. }
  unfold app.chat, bind at 1. rewrite Hrun.
  change (app.get (success_result k text_content paths) "image_paths" (VList []))
    with (of_str_list paths).
  unfold bind, lift, of_str_list at 1. cbn [iterate].
  rewrite image_urls_loop_strings, urls_of_nonempty by done. done.
Qed.

Lemma chat_success_witness :
  send_message (stub shows) (Some "c") "draw" (fresh 30) =
    (Return (success_result "c" (Some "two pictures")
               ["output/c_4_0.png"; "output/c_5_2.png"]), pictured) /\
  app.chat (stub shows) (Some "c") "draw" (fresh 30) =
    (Return (chat_body "c" (of_optional_str (Some "two pictures"))
               ((fun path => "/images/" +:+ basename path) <$>
                ["output/c_4_0.png"; "output/c_5_2.png"]) true VNone),
     pictured).
Proof.
  split; [reflexivity|].
  apply (chat_success (stub shows) (Some "c") "draw" (fresh 30) pictured "c"
           (Some "two pictures") ["output/c_4_0.png"; "output/c_5_2.png"]).
  reflexivity.
Defined.

(** X19. When [send_message] returns a failure, [POST /chat] replies with
    [success] false, the error text, no text and no URL; when
    [send_message] raises, the endpoint raises the same exception and the
    world is unchanged. *)
Theorem chat_failure (env : Env) (id : option string) (message : string)
    (w w' : World) (k : string) (e : Exception) :
  (send_message env id message w = (Return (failure_result k e), w') ->
   app.chat env id message w =
     (Return (chat_body k VNone [] false (VStr (str e))), w')) /\
  (send_message env id message w = (Raise e, w') ->
   app.chat env id message w = (Raise e, w) /\ w' = w).
Proof.
  split.
  - intros Hrun. unfold app.chat, bind at 1. by rewrite Hrun.
  - intros Hrun. pose proof (send_message_raises_unchanged _ _ _ _ _ _ Hrun) as ->.
    unfold app.chat, bind at 1. by rewrite Hrun.
Qed.

Lemma chat_failure_witness :
  (send_message (stub (Raise quota)) (Some "c") "hello" (fresh 30) =
     (Return (failure_result "c" quota),
      appended "c" (error_message (stub (Raise quota)) quota 4)
        (advance 1 (asked_world (stub (Raise quota)) 30))) /\
   app.chat (stub (Raise quota)) (Some "c") "hello" (fresh 30) =
     (Return (chat_body "c" VNone [] false (VStr (str quota))),
      appended "c" (error_message (stub (Raise quota)) quota 4)
        (advance 1 (asked_world (stub (Raise quota)) 30)))) /\
  (send_message (offline refused) (Some "c") "hello" (fresh 30) =
     (Raise refused, fresh 30) /\
   app.chat (offline refused) (Some "c") "hello" (fresh 30) = (Raise refused, fresh 30) /\
   fresh 30 = fresh 30).
Proof.
  split.
  - split; [reflexivity|].
    apply (proj1 (chat_failure (stub (Raise quota)) (Some "c") "hello" (fresh 30)
                    (appended "c" (error_message (stub (Raise quota)) quota 4)
                       (advance 1 (asked_world (stub (Raise quota)) 30)))
                    "c" quota)).
    reflexivity.
  - split; [reflexivity|].
    apply (proj2 (chat_failure (offline refused) (Some "c") "hello" (fresh 30)
                    (fresh 30) "c" refused)).
    reflexivity.
Defined.

(** [GET /conversations/{id}], by the history the store holds. *)
Lemma get_conversation_runs (k base_url : string) (w : World) :
  app.get_conversation k base_url w =
    match history_of k w with
    | None | Some [] => (Return (HTTPException 404 "Conversation not found"), w)
    | Some history =>
        match app.convert_paths_to_urls base_url history with
        | Return updated_history => (Return (OK (k, updated_history)), w)
        | Raise e => (Raise e, w)
        end
    end.
Proof.
  unfold app.get_conversation, bind at 1, get_conversation_history, bind, gets,
    get_item, history_of.
  destruct (contains (Some k) w) eqn:Hc; simpl.
  - apply contains_Some in Hc as [c Hc]. rewrite Hc. simpl.
    destruct (history c) as [|turn history] eqn:Hh; [done|].
    rewrite bool_decide_eq_false_2 by done. unfold lift.
    by destruct (app.convert_paths_to_urls base_url (turn :: history)).
  - unfold contains in Hc. apply bool_decide_eq_false in Hc.
    apply eq_None_not_Some in Hc. by rewrite Hc.
Qed.

(** X20. [GET /conversations/{id}] answers 404 exactly when the id is
    unknown or its history is empty, as after a creation or a reset. *)
Theorem get_conversation_not_found (k base_url : string) (w : World) :
  app.get_conversation k base_url w =
    (Return (HTTPException 404 "Conversation not found"), w) <->
  history_of k w = None \/ history_of k w = Some [].
Proof.
  rewrite get_conversation_runs.
  destruct (history_of k w) as [[|turn history]|].
  - split; [by right|done].
  - split; [|by intros [|]].
    by destruct (app.convert_paths_to_urls base_url (turn :: history)).
  - split; [by left|done].
Qed.

Lemma get_conversation_not_found_witness :
  (history_of "c" (opened_world 30) = None \/ history_of "c" (opened_world 30) = Some []) /\
  app.get_conversation "c" "http://localhost:8000" (opened_world 30) =
    (Return (HTTPException 404 "Conversation not found"), opened_world 30).
Proof.
  split; [right; reflexivity|].
  apply (proj2 (get_conversation_not_found "c" "http://localhost:8000" (opened_world 30))).
  right. reflexivity.
Defined.

(** X21. For a stored conversation with a non-empty history of client
    turns, [GET /conversations/{id}] returns the id with the converted
    history, as many turns as stored, and changes nothing. *)
Theorem get_conversation_found (k base_url : string) (w : World) (history : list Dict) :
  history_of k w = Some history ->
  history <> [] ->
  Forall client_turn history ->
  exists updated_history : list Dict,
    app.convert_paths_to_urls base_url history = Return updated_history /\
    length updated_history = length history /\
    app.get_conversation k base_url w = (Return (OK (k, updated_history)), w).
Proof.
  intros Hk Hne Hturns.
  destruct (convert_paths_to_urls_returns base_url history Hturns)
    as (updated & Hconv & Hall).
  exists updated. split; [done|]. split; [symmetry; by eapply Forall2_length|].
  rewrite get_conversation_runs, Hk. destruct history; [done|]. by rewrite Hconv.
Qed.

Lemma hi_history_client_turns : Forall client_turn hi_history.
Proof.
  constructor; [left; by eexists _, _, _|].
  constructor; [right; left; by eexists _, _, _, _|]. constructor.
Qed.

Lemma get_conversation_found_witness :
  history_of "c" (answered_world (stub (says "hi")) 30) = Some hi_history /\
  hi_history <> [] /\
  Forall client_turn hi_history /\
  exists updated_history : list Dict,
    app.convert_paths_to_urls "http://localhost:8000" hi_history = Return updated_history /\
    length updated_history = length hi_history /\
    app.get_conversation "c" "http://localhost:8000" (answered_world (stub (says "hi")) 30) =
      (Return (OK ("c", updated_history)), answered_world (stub (says "hi")) 30).
Proof.
  split; [reflexivity|]. split; [discriminate|].
  split; [exact hi_history_client_turns|].
  apply (get_conversation_found "c" "http://localhost:8000"
           (answered_world (stub (says "hi")) 30) hi_history);
    [reflexivity|discriminate|exact hi_history_client_turns].
Defined.

(** X22. After any sequence of calls on a client, [GET
    /conversations/{id}] returns a body or a 404, never an exception, and
    leaves the world as it is. *)
Theorem get_conversation_never_raises (cs : list call) (w : World) (k base_url : string) :
  histories (Forall client_turn) w ->
  exists body : reply (string * list Dict),
    app.get_conversation k base_url (after_all cs w) = (Return body, after_all cs w).
Proof.
  intros Hinv.
  assert (histories (Forall client_turn) (after_all cs w)) as Hinv'.
  { apply (after_all_keeps _ (max_history (self w))); [done| |done|done].
    intros h env message t k' r last. apply client_turns_exchange. }
  rewrite get_conversation_runs.
  destruct (history_of k (after_all cs w)) as [[|turn history]|] eqn:Hk;
    [by eexists| |by eexists].
  destruct (convert_paths_to_urls_returns base_url (turn :: history))
    as (updated & -> & _); [|by eexists].
  unfold history_of in Hk.
  destruct (conversations (self (after_all cs w)) !! k) as [c|] eqn:Hc; [|done].
  simpl in Hk. injection Hk as <-. by eapply Hinv'.
Qed.

Lemma get_conversation_never_raises_witness :
  histories (Forall client_turn) (fresh 30) /\
  exists body : reply (string * list Dict),
    app.get_conversation "c" "http://localhost:8000"
      (after_all [Send (stub shows) (Some "c") "draw"; Reset (offline refused) "c"]
         (fresh 30)) =
      (Return body,
       after_all [Send (stub shows) (Some "c") "draw"; Reset (offline refused) "c"]
         (fresh 30)).
Proof.
  split; [intros k c Hk; simpl in Hk; done|].
  apply (get_conversation_never_raises
           [Send (stub shows) (Some "c") "draw"; Reset (offline refused) "c"]
           (fresh 30) "c" "http://localhost:8000").
  intros k c Hk; simpl in Hk; done.
Defined.

(** ** Creating and deleting *)

(** X15. [delete_conversation] on a stored id returns true and removes
    that entry only; on an absent id it returns false and changes nothing;
    a second deletion of the same id always returns false. *)
Theorem delete_conversation_removes (k : string) (w : World) :
  (forall c : Conversation,
     conversations (self w) !! k = Some c ->
     delete_conversation k w = (Return true, set_conversations (delete k) w) /\
     conversations (self (delete_conversation k w).2) !! k = None /\
     forall k' : string, k' <> k ->
       conversations (self (delete_conversation k w).2) !! k' =
       conversations (self w) !! k') /\
  (conversations (self w) !! k = None ->
   delete_conversation k w = (Return false, w)) /\
  delete_conversation k (delete_conversation k w).2 =
    (Return false, (delete_conversation k w).2).
Proof.
  assert (conversations (self w) !! k = None ->
          delete_conversation k w = (Return false, w)) as Habsent.
  { intros Hk. unfold delete_conversation, bind, gets.
    by rewrite (contains_absent _ _ Hk). }
  assert (forall c, conversations (self w) !! k = Some c ->
            delete_conversation k w = (Return true, set_conversations (delete k) w))
    as Hpresent.
  { intros c Hk. unfold delete_conversation, bind, gets, modify.
    by rewrite (contains_lookup _ _ _ Hk). }
  split; [|split; [done|]].
  - intros c Hk. rewrite (Hpresent c Hk). simpl. split; [done|].
    split; [apply lookup_delete_eq|]. intros k' Hne. by apply lookup_delete_ne.
  - destruct (conversations (self w) !! k) as [c|] eqn:Hk.
    + rewrite (Hpresent c eq_refl). simpl.
      unfold delete_conversation, bind, gets.
      rewrite contains_absent; [done|]. simpl. apply lookup_delete_eq.
    + rewrite (Habsent eq_refl). simpl.
      unfold delete_conversation, bind, gets. by rewrite contains_absent.
Qed.

Lemma delete_conversation_removes_witness :
  (conversations (self (opened_world 30)) !! "c" = Some opened /\
   delete_conversation "c" (opened_world 30) =
     (Return true, set_conversations (delete "c") (opened_world 30)) /\
   conversations (self (delete_conversation "c" (opened_world 30)).2) !! "c" = None /\
   forall k' : string, k' <> "c" ->
     conversations (self (delete_conversation "c" (opened_world 30)).2) !! k' =
     conversations (self (opened_world 30)) !! k') /\
  (conversations (self (fresh 30)) !! "c" = None /\
   delete_conversation "c" (fresh 30) = (Return false, fresh 30)).
Proof.
  split.
  - split; [reflexivity|].
    apply (proj1 (delete_conversation_removes "c" (opened_world 30)) opened).
    reflexivity.
  - split; [reflexivity|].
    apply (proj1 (proj2 (delete_conversation_removes "c" (fresh 30)))). reflexivity.
Defined.

(** X14. [create_conversation] stores an empty conversation under the
    given id, or under a fresh uuid, replacing what was stored there, and
    touches nothing else; when the chat session fails to open it raises
    and the world is as before. *)
Theorem create_conversation_replaces (env : Env) (id : option string) (w : World) :
  (forall ch : Chat,
     chats_create env (model (self w)) = Return ch ->
     exists (k : string) (w' : World),
       create_conversation env id w = (Return k, w') /\
       k = default (uuid4 env) id /\
       conversations (self w') !! k =
         Some (new_conversation ch (clock env (ticks w)) (clock env (S (ticks w)))) /\
       dom (conversations (self w')) = {[ k ]} ∪ dom (conversations (self w)) /\
       (forall k' : string, k' <> k ->
          conversations (self w') !! k' = conversations (self w) !! k') /\
       disk w' = disk w /\ settings w' = settings w) /\
  (forall e : Exception,
     chats_create env (model (self w)) = Raise e ->
     create_conversation env id w = (Raise e, w)).
Proof.
  split.
  - intros ch Hch. rewrite (create_conversation_returns _ _ _ _ Hch).
    eexists _, _. split; [done|]. split; [done|]. unfold store. simpl.
    split; [apply lookup_insert_eq|]. split; [apply dom_insert_L|].
    split; [|done]. intros k' Hne. by apply lookup_insert_ne.
  - intros e Hch. by apply create_conversation_raises.
Qed.

Lemma create_conversation_replaces_witness :
  (chats_create (stub (says "hi")) (model (self (answered_world (stub (says "hi")) 30))) =
     Return 0%nat /\
   exists (k : string) (w' : World),
     create_conversation (stub (says "hi")) (Some "c")
       (answered_world (stub (says "hi")) 30) = (Return k, w') /\
     k = default (uuid4 (stub (says "hi"))) (Some "c") /\
     conversations (self w') !! k =
       Some (new_conversation 0%nat
               (clock (stub (says "hi")) (ticks (answered_world (stub (says "hi")) 30)))
               (clock (stub (says "hi"))
                  (S (ticks (answered_world (stub (says "hi")) 30))))) /\
     dom (conversations (self w')) =
       {[ k ]} ∪ dom (conversations (self (answered_world (stub (says "hi")) 30))) /\
     (forall k' : string, k' <> k ->
        conversations (self w') !! k' =
        conversations (self (answered_world (stub (says "hi")) 30)) !! k') /\
     disk w' = disk (answered_world (stub (says "hi")) 30) /\
     settings w' = settings (answered_world (stub (says "hi")) 30)) /\
  (chats_create (offline refused) (model (self (fresh 30))) = Raise refused /\
   create_conversation (offline refused) None (fresh 30) = (Raise refused, fresh 30)).
Proof.
  split.
  - split; [reflexivity|].
    apply (proj1 (create_conversation_replaces (stub (says "hi")) (Some "c")
                    (answered_world (stub (says "hi")) 30)) 0%nat).
    reflexivity.
  - split; [reflexivity|].
    apply (proj2 (create_conversation_replaces (offline refused) None (fresh 30)) refused).
    reflexivity.
Defined.

(** ** The window right after the user turn *)

(** X5. With a window of at least one entry, right after the user turn is
    recorded the history is a suffix of the prior history extended by that
    turn, ends with it, and holds [min (len + 1) max_history] entries. *)
Theorem record_user_message_keeps_recent (env : Env) (k message : string)
    (w : World) (c : Conversation) :
  1 <= max_history (self w) ->
  conversations (self w) !! k = Some c ->
  exists kept : list Dict,
    history_of k (record_user_message env k message w).2 = Some kept /\
    kept `suffix_of` history c ++ [user_message env message (clock env (ticks w))] /\
    last kept = Some (user_message env message (clock env (ticks w))) /\
    Z.of_nat (length kept) = Z.min (Z.of_nat (length (history c)) + 1) (max_history (self w)).
Proof.
  intros Hmax Hk. rewrite (record_user_message_runs _ _ _ _ _ Hk). simpl.
  eexists. split.
  { unfold history_of, store. simpl. by rewrite lookup_insert_eq. }
  simpl. split; [apply sliding_window_suffix|].
  destruct (sliding_window_keeps_last (max_history (self w)) (history c)
              (user_message env message (clock env (ticks w)))) as (older & Hw & _); [lia|].
  split; [rewrite Hw; apply last_snoc|].
  set (h := history c ++ _).
  assert (Z.of_nat (length h) = Z.of_nat (length (history c)) + 1) as Hlen.
  { unfold h. rewrite length_app. simpl. lia. }
  destruct (Z.le_gt_cases (Z.of_nat (length h)) (max_history (self w))).
  - rewrite sliding_window_small by done. lia.
  - rewrite sliding_window_recent by lia. rewrite length_drop. lia.
Qed.

Lemma record_user_message_keeps_recent_witness :
  1 <= max_history (self (opened_world 30)) /\
  conversations (self (opened_world 30)) !! "c" = Some opened /\
  exists kept : list Dict,
    history_of "c" (record_user_message (stub (says "hi")) "c" "hello" (opened_world 30)).2
      = Some kept /\
    kept `suffix_of` history opened ++
      [user_message (stub (says "hi")) "hello"
         (clock (stub (says "hi")) (ticks (opened_world 30)))] /\
    last kept = Some (user_message (stub (says "hi")) "hello"
                        (clock (stub (says "hi")) (ticks (opened_world 30)))) /\
    Z.of_nat (length kept) =
      Z.min (Z.of_nat (length (history opened)) + 1) (max_history (self (opened_world 30))).
Proof.
  split; [simpl; lia|]. split; [reflexivity|].
  apply (record_user_message_keeps_recent (stub (says "hi")) "c" "hello"
           (opened_world 30) opened); [simpl; lia|reflexivity].
Defined.

(** ** The reset and delete endpoints *)

(** X23. [POST /conversations/{id}/reset] answers 404 for an unknown id
    and changes nothing; for a stored id it answers 200 and empties the
    history; when the new chat session fails to open it raises and the
    conversation is as it was. *)
Theorem reset_endpoint (env : Env) (k : string) (w : World) :
  (conversations (self w) !! k = None ->
   app.reset_conversation env k w =
     (Return (HTTPException 404 "Conversation not found"), w)) /\
  (forall (c : Conversation) (ch : Chat),
     conversations (self w) !! k = Some c ->
     chats_create env (model (self w)) = Return ch ->
     exists (body : Dict) (w' : World),
       app.reset_conversation env k w = (Return (OK body), w') /\
       history_of k w' = Some []) /\
  (forall (c : Conversation) (e : Exception),
     conversations (self w) !! k = Some c ->
     chats_create env (model (self w)) = Raise e ->
     app.reset_conversation env k w = (Raise e, w)).
Proof.
  unfold app.reset_conversation, reset_conversation, bind at 1. split; [|split].
  - intros Hk. unfold bind, gets. by rewrite (contains_absent _ _ Hk).
  - intros c ch Hk Hch. unfold bind, gets.
    rewrite (contains_lookup _ _ _ Hk). simpl.
    rewrite (create_conversation_returns _ _ _ _ Hch). simpl.
    eexists _, _. split; [done|]. unfold history_of, store. simpl.
    by rewrite lookup_insert_eq.
  - intros c e Hk Hch. unfold bind, gets.
    rewrite (contains_lookup _ _ _ Hk). simpl.
    by rewrite (create_conversation_raises _ _ _ _ Hch).
Qed.

Lemma reset_endpoint_witness :
  (conversations (self (fresh 30)) !! "c" = None /\
   app.reset_conversation (stub (says "hi")) "c" (fresh 30) =
     (Return (HTTPException 404 "Conversation not found"), fresh 30)) /\
  (conversations (self (answered_world (stub (says "hi")) 30)) !! "c" =
     Some (exchanged (stub (says "hi")) 30 "hello" 2 opened
             (assistant_message (stub (says "hi")) (Some "hi") [] 4)) /\
   chats_create (stub (says "hi")) (model (self (answered_world (stub (says "hi")) 30))) =
     Return 0%nat /\
   exists (body : Dict) (w' : World),
     app.reset_conversation (stub (says "hi")) "c" (answered_world (stub (says "hi")) 30) =
       (Return (OK body), w') /\
     history_of "c" w' = Some []) /\
  (conversations (self (answered_world (stub (says "hi")) 30)) !! "c" =
     Some (exchanged (stub (says "hi")) 30 "hello" 2 opened
             (assistant_message (stub (says "hi")) (Some "hi") [] 4)) /\
   chats_create (offline refused) (model (self (answered_world (stub (says "hi")) 30))) =
     Raise refused /\
   app.reset_conversation (offline refused) "c" (answered_world (stub (says "hi")) 30) =
     (Raise refused, answered_world (stub (says "hi")) 30)).
Proof.
  split; [|split].
  - split; [reflexivity|].
    apply (proj1 (reset_endpoint (stub (says "hi")) "c" (fresh 30))). reflexivity.
  - split; [reflexivity|]. split; [reflexivity|].
    apply (proj1 (proj2 (reset_endpoint (stub (says "hi")) "c"
                           (answered_world (stub (says "hi")) 30)))
             (exchanged (stub (says "hi")) 30 "hello" 2 opened
                (assistant_message (stub (says "hi")) (Some "hi") [] 4)) 0%nat);
      reflexivity.
  - split; [reflexivity|]. split; [reflexivity|].
    apply (proj2 (proj2 (reset_endpoint (offline refused) "c"
                           (answered_world (stub (says "hi")) 30)))
             (exchanged (stub (says "hi")) 30 "hello" 2 opened
                (assistant_message (stub (says "hi")) (Some "hi") [] 4)) refused);
      reflexivity.
Defined.

(** X24. [DELETE /conversations/{id}] answers 404 for an unknown id and
    changes nothing; for a stored id it answers 200, after which the id is
    gone and [GET /conversations/{id}] answers 404. *)
Theorem delete_endpoint (k : string) (w : World) :
  (conversations (self w) !! k = None ->
   app.delete_conversation k w =
     (Return (HTTPException 404 "Conversation not found"), w)) /\
  (forall c : Conversation,
     conversations (self w) !! k = Some c ->
     exists (body : Dict) (w' : World),
       app.delete_conversation k w = (Return (OK body), w') /\
       history_of k w' = None /\
       forall base_url : string,
         app.get_conversation k base_url w' =
           (Return (HTTPException 404 "Conversation not found"), w')).
Proof.
  unfold app.delete_conversation, delete_conversation, bind at 1. split.
  - intros Hk. unfold bind, gets. by rewrite (contains_absent _ _ Hk).
  - intros c Hk. unfold bind, gets, modify.
    rewrite (contains_lookup _ _ _ Hk). simpl.
    eexists _, _. split; [done|].
    assert (history_of k (set_conversations (delete k) w) = None) as Hgone.
    { unfold history_of. simpl. by rewrite lookup_delete_eq. }
    split; [done|]. intros base_url. by rewrite get_conversation_runs, Hgone.
Qed.

Lemma delete_endpoint_witness :
  (conversations (self (fresh 30)) !! "c" = None /\
   app.delete_conversation "c" (fresh 30) =
     (Return (HTTPException 404 "Conversation not found"), fresh 30)) /\
  (conversations (self (opened_world 30)) !! "c" = Some opened /\
   exists (body : Dict) (w' : World),
     app.delete_conversation "c" (opened_world 30) = (Return (OK body), w') /\
     history_of "c" w' = None /\
     forall base_url : string,
       app.get_conversation "c" base_url w' =
         (Return (HTTPException 404 "Conversation not found"), w')).
Proof.
  split.
  - split; [reflexivity|].
    apply (proj1 (delete_endpoint "c" (fresh 30))). reflexivity.
  - split; [reflexivity|].
    apply (proj2 (delete_endpoint "c" (opened_world 30)) opened). reflexivity.
Defined.
